(** * Viewer aggregation of grosbeak: a shallow embedding and its properties

    The development follows [grosbeak/db.py] (the collection registry) and
    [grosbeak/routers/api.py] ([make_key], [get_by_path], [set_by_path],
    [serialize_viewer_document], [get_viewer_data]).

    Python dictionaries are insertion ordered; they are association lists
    here, with the operations the program uses.  Exceptions are an error
    monad.  In-place mutation of a nested dictionary is rendered by rebuilding
    the enclosing dictionaries along the path that reaches it. *)

From Stdlib Require Import String Ascii ZArith List Bool Lia DecimalString.
Import ListNotations.
Open Scope string_scope.
Open Scope list_scope.

(** ** Exceptions *)

Inductive exn : Type :=
| KeyError (key : string)   (* d[k] on a missing key; carries only the key *)
| OverflowError             (* math.isnan on an int outside the double range *)
| AttributeError            (* .get / .setdefault / .update on a non-dict *)
| TypeError                 (* item assignment on a non-dict *)
| IndexError.               (* path[-1] on an empty path *)

Inductive result (A : Type) : Type :=
| Ok (a : A)
| Raise (e : exn).
Arguments Ok {A} a.
Arguments Raise {A} e.

Definition bind {A B : Type} (m : result A) (f : A -> result B) : result B :=
  match m with
  | Ok a => f a
  | Raise e => Raise e
  end.

Notation "x <- m ;; k" := (bind m (fun x => k))
  (at level 61, m at next level, right associativity).
Notation "' pat <- m ;; k" := (bind m (fun pat => k))
  (at level 61, pat pattern, m at next level, right associativity).

(** [functools.reduce] with a step that may raise. *)
Fixpoint reduce {A B : Type} (f : A -> B -> result A) (xs : list B) (init : A)
  : result A :=
  match xs with
  | [] => Ok init
  | x :: xs' => a <- f init x ;; reduce f xs' a
  end.

(** ** Python values *)

(** A double is NaN, an infinity, or finite.  A finite double is identified
    by the shortest decimal rendering that reads back to it, which is what
    [str] and [repr] print: ["0.0"], ["-0.0"], ["254.0"], ["1e+16"]. *)
Inductive pyfloat : Type :=
| FNaN
| FInf (negative : bool)
| FFinite (rendering : string).

(** Any other class a document may hold (ObjectId, datetime, Binary, ...).
    The program only prints such a value and tests its truth. *)
Record pyobj : Type := mkobj {
  obj_str : string;
  obj_repr : string;
  obj_truthy : bool
}.

#[warnings="-register-all"]
Inductive value : Type :=
| VNone
| VBool (b : bool)
| VInt (z : Z)
| VFloat (f : pyfloat)
| VStr (s : string)
| VList (xs : list value)
| VDict (kvs : list (string * value))
| VObj (o : pyobj).

Definition dict : Type := list (string * value).

(** ** Dictionary operations *)

Section Dict.
Context {V : Type}.

Fixpoint dict_get (d : list (string * V)) (k : string) : option V :=
  match d with
  | [] => None
  | (k', v) :: d' => if String.eqb k' k then Some v else dict_get d' k
  end.

(** [d[k] = v]: an existing key keeps its position, a new one goes last. *)
Fixpoint dict_set (d : list (string * V)) (k : string) (v : V)
  : list (string * V) :=
  match d with
  | [] => [(k, v)]
  | (k', v') :: d' =>
      if String.eqb k' k then (k, v) :: d' else (k', v') :: dict_set d' k v
  end.

(** [d.pop(k)] / [d.pop(k, None)], for the dictionary left behind. *)
Definition dict_pop (d : list (string * V)) (k : string) : list (string * V) :=
  filter (fun kv => negb (String.eqb (fst kv) k)) d.

(** [d.update(new)]. *)
Definition dict_update (d new : list (string * V)) : list (string * V) :=
  fold_left (fun acc kv => dict_set acc (fst kv) (snd kv)) new d.

Definition dict_keys (d : list (string * V)) : list string := map fst d.

Fixpoint unique_keys (d : list (string * V)) : bool :=
  match d with
  | [] => true
  | (k, _) :: d' =>
      negb (existsb (String.eqb k) (dict_keys d')) && unique_keys d'
  end.
End Dict.

(** ** Builtins: [str], truth value, [isinstance], [math.isnan] *)

Definition str_of_int (z : Z) : string := NilZero.string_of_int (Z.to_int z).

Definition str_of_float (f : pyfloat) : string :=
  match f with
  | FNaN => "nan"
  | FInf false => "inf"
  | FInf true => "-inf"
  | FFinite r => r
  end.

Section Rendering.
(** [repr] of a [str] (quoting and escaping), as CPython prints it inside
    the rendering of a list or a dict. *)
Variable repr_str : string -> string.

Fixpoint py_repr (v : value) : string :=
  match v with
  | VNone => "None"
  | VBool true => "True"
  | VBool false => "False"
  | VInt z => str_of_int z
  | VFloat f => str_of_float f
  | VStr s => repr_str s
  | VList xs => ("[" ++ String.concat ", " (map py_repr xs) ++ "]")%string
  | VDict kvs =>
      ("{" ++ String.concat ", "
               (map (fun kv => (repr_str (fst kv) ++ ": " ++ py_repr (snd kv))%string) kvs)
           ++ "}")%string
  | VObj o => obj_repr o
  end.

Definition py_str (v : value) : string :=
  match v with
  | VStr s => s
  | VObj o => obj_str o
  | _ => py_repr v
  end.
End Rendering.

Definition truthy (v : value) : bool :=
  match v with
  | VNone => false
  | VBool b => b
  | VInt z => negb (z =? 0)%Z
  | VFloat (FFinite r) => negb (String.eqb r "0.0" || String.eqb r "-0.0")
  | VFloat _ => true
  | VStr s => negb (String.eqb s "")
  | VList xs => match xs with [] => false | _ => true end
  | VDict kvs => match kvs with [] => false | _ => true end
  | VObj o => obj_truthy o
  end.

(** [isinstance(v, (float, int, str, bool, type(None)))]. *)
Definition is_primitive (v : value) : bool :=
  match v with
  | VNone | VBool _ | VInt _ | VFloat _ | VStr _ => true
  | VList _ | VDict _ | VObj _ => false
  end.

(** [isinstance(v, numbers.Number)]: [bool] is a subclass of [int]. *)
Definition is_number (v : value) : bool :=
  match v with
  | VBool _ | VInt _ | VFloat _ => true
  | _ => false
  end.

(** The least magnitude of an int that does not round to a double. *)
Definition DBL_OVERFLOW : Z := 2 ^ 1024 - 2 ^ 970.

(** [math.isnan(v)] on a number: the argument is converted to a double. *)
Definition math_isnan (v : value) : result bool :=
  match v with
  | VFloat FNaN => Ok true
  | VInt z => if (Z.abs z <? DBL_OVERFLOW)%Z then Ok false else Raise OverflowError
  | VFloat _ | VBool _ => Ok false
  | _ => Raise TypeError
  end.

(** [d[k]] on a dict. *)
Definition subscript (d : dict) (k : string) : result value :=
  match dict_get d k with
  | Some v => Ok v
  | None => Raise (KeyError k)
  end.

(** [d.get(k)]. *)
Definition py_get (d : value) (k : string) : result value :=
  match d with
  | VDict kvs => Ok (match dict_get kvs k with Some v => v | None => VNone end)
  | _ => Raise AttributeError
  end.

(** [d[k] = v]. *)
Definition py_setitem (d : value) (k : string) (v : value) : result value :=
  match d with
  | VDict kvs => Ok (VDict (dict_set kvs k v))
  | _ => Raise TypeError
  end.

(** [d.update(new)]. *)
Definition py_update (d : value) (new : dict) : result value :=
  match d with
  | VDict kvs => Ok (VDict (dict_update kvs new))
  | _ => Raise AttributeError
  end.

(** [x in xs] for an optional list: [xs is not None and x in xs]. *)
Definition is_listed (xs : option (list string)) (x : string) : bool :=
  match xs with
  | None => false
  | Some l => existsb (String.eqb x) l
  end.

(** ** The registry ([db.py]) *)

Inductive DocumentTypes : Type := team | tim | aim | alliance | auto_paths.

Definition type_name (t : DocumentTypes) : string :=
  match t with
  | team => "team"
  | tim => "tim"
  | aim => "aim"
  | alliance => "alliance"
  | auto_paths => "auto_paths"
  end.

Definition COLLECTIONS : list (string * DocumentTypes) :=
  [ ("raw_obj_pit", team);
    ("tba_tim", tim);
    ("obj_tim", tim);
    ("obj_team", team);
    ("subj_team", team);
    ("predicted_aim", aim);
    ("predicted_team", team);
    ("tba_team", team);
    ("pickability", team);
    ("picklist", team);
    ("predicted_alliances", alliance);
    ("auto_paths", auto_paths);
    ("subj_tim", tim) ].

Definition COLLECTION_KEYS (t : DocumentTypes) : list string :=
  match t with
  | team => ["team_number"]
  | tim => ["match_number"; "team_number"]
  | aim => ["match_number"; "alliance_color_is_red"]
  | alliance => ["alliance_num"]
  | auto_paths => ["team_number"; "path_number"]
  end.

(** The keys of [COLLECTION_KEYS], in the order the dict lists them. *)
Definition document_types : list DocumentTypes :=
  [team; tim; aim; alliance; auto_paths].

(** ** [api.py] *)

Section Viewer.
Variable repr_str : string -> string.

(** The loop of [make_key]; [document] is mutated by [pop], so the document
    left behind is returned with the key. *)
Fixpoint make_key_loop (headers : list string) (document : dict)
         (keys : list string) : result (list string * dict) :=
  match headers with
  | [] => Ok (keys, document)
  | header :: rest =>
      k <- (if String.eqb header "alliance_color_is_red" then
              alliance_color_is_red <- subscript document "alliance_color_is_red" ;;
              Ok (if truthy alliance_color_is_red then "red" else "blue")
            else
              v <- subscript document header ;;
              Ok (py_str repr_str v)) ;;
      make_key_loop rest (dict_pop document header) (keys ++ [k])
  end.

Definition make_key (collection_type : DocumentTypes) (document : dict)
  : result (list string * dict) :=
  make_key_loop (COLLECTION_KEYS collection_type) document [].

Definition get_by_path (dictionary : value) (path : list string) : result value :=
  reduce (fun d key => if truthy d then py_get d key else Ok VNone)
         path dictionary.

(** [reduce(setdefault, path[:-1], dictionary)[path[-1]] = value], as the
    dictionary it leaves behind. *)
Fixpoint set_by_path (dictionary : value) (path : list string) (v : value)
  : result value :=
  match path with
  | [] => Raise IndexError
  | [last] => py_setitem dictionary last v
  | key :: rest =>
      match dictionary with
      | VDict kvs =>
          let child := match dict_get kvs key with
                       | Some c => c
                       | None => VDict []
                       end in
          child' <- set_by_path child rest v ;;
          Ok (VDict (dict_set kvs key child'))
      | _ => Raise AttributeError
      end
  end.

Definition serialize_viewer_document (document : dict) : dict :=
  dict_pop document "_id".

(** The query parameters of [get_viewer_data]. *)
Record query : Type := mkquery {
  use_strings : bool;
  ignored_collections : option (list string);
  ignored_to_string_datapoints : option (list string);
  ignored_to_string_collections : option (list string)
}.

(** Lines 200-207: the loop over [sanitized.items()]. *)
Definition stringify (itsd : option (list string)) (sanitized : dict) : dict :=
  map (fun kv =>
         if is_listed itsd (fst kv) then kv
         else if is_primitive (snd kv) then kv
         else (fst kv, VStr (py_str repr_str (snd kv))))
      sanitized.

(** Lines 208-212: the loop that replaces NaN by None. *)
Fixpoint nan_to_none (sanitized : dict) : result dict :=
  match sanitized with
  | [] => Ok []
  | (k, v) :: rest =>
      nan <- (if is_number v then math_isnan v else Ok false) ;;
      rest' <- nan_to_none rest ;;
      Ok ((k, if nan then VNone else v) :: rest')
  end.

(** Lines 195-212: the two loops over the fields of [sanitized]. *)
Definition sanitize_fields (q : query) (collection : string) (sanitized : dict)
  : result dict :=
  let sanitized :=
    if use_strings q && negb (is_listed (ignored_to_string_collections q) collection)
    then stringify (ignored_to_string_datapoints q) sanitized
    else sanitized in
  nan_to_none sanitized.

(** Lines 194-212: what is left of the document after [make_key] loses its
    [_id], is stringified where the query asks for it, and has NaN replaced. *)
Definition sanitize (q : query) (collection : string) (doc : dict) : result dict :=
  sanitize_fields q collection (serialize_viewer_document doc).

(** The body of the loop over the documents of one collection.
    [common_doc] aliases the dict stored at [key]; its in-place [update]
    is rendered by storing the updated dict at [key] again. *)
Definition process_document (q : query) (collection : string)
           (collection_type : DocumentTypes) (data : dict) (doc : dict)
  : result dict :=
  '(key, doc) <- make_key collection_type doc ;;
  tree <- subscript data (type_name collection_type) ;;
  found <- get_by_path tree key ;;
  '(tree, common_doc) <-
    (match found with
     | VNone =>
         tree' <- set_by_path tree key (VDict []) ;;
         Ok (tree', VDict [])
     | _ => Ok (tree, found)
     end) ;;
  sanitized <- sanitize q collection doc ;;
  common_doc <- py_update common_doc sanitized ;;
  tree <- set_by_path tree key common_doc ;;
  Ok (dict_set data (type_name collection_type) tree).

(** The database [client[event_key]]: what [db[collection].find()] yields,
    for every collection name (nothing for a collection that does not
    exist). *)
Definition database : Type := string -> list dict.

Definition process_collection (q : query) (db : database) (data : dict)
           (entry : string * DocumentTypes) : result dict :=
  let (collection, collection_type) := entry in
  if is_listed (ignored_collections q) collection then Ok data
  else reduce (process_document q collection collection_type) (db collection) data.

Definition initial_data : dict :=
  map (fun collection_type => (type_name collection_type, VDict [])) document_types.

Definition get_viewer_data (q : query) (db : database) : result dict :=
  reduce (process_collection q db) COLLECTIONS initial_data.

End Viewer.


(** ** Reading a view, and what a build is expected to put in it

    The definitions of this part are not in the program: they are the
    vocabulary of the properties proved below. *)

Definition DocumentTypes_eq_dec (a b : DocumentTypes) : {a = b} + {a <> b}.
Proof. decide equality. Defined.

Definition path_eq_dec (p p' : list string) : {p = p'} + {p <> p'} :=
  list_eq_dec string_dec p p'.

(** [tree[k1][k2]...], when every level is there. *)
Fixpoint lookup_path (tree : value) (path : list string) : option value :=
  match path with
  | [] => Some tree
  | k :: rest =>
      match tree with
      | VDict kvs =>
          match dict_get kvs k with
          | Some child => lookup_path child rest
          | None => None
          end
      | _ => None
      end
  end.

(** The nesting depth of the tree of a document type. *)
Definition depth (t : DocumentTypes) : nat := length (COLLECTION_KEYS t).

(** The leaf [data[t][k1]...[kn]] of a view. *)
Definition leaf_at (data : dict) (t : DocumentTypes) (path : list string)
  : option dict :=
  match dict_get data (type_name t) with
  | Some tree =>
      match lookup_path tree path with
      | Some (VDict leaf) => Some leaf
      | _ => None
      end
  | None => None
  end.

(** A tree of nested dicts with [n] levels above its leaves. *)
Fixpoint shaped (n : nat) (v : value) {struct n} : Prop :=
  match v with
  | VDict kvs =>
      match n with
      | 0 => True
      | S m => forall k child, dict_get kvs k = Some child -> shaped m child
      end
  | _ => False
  end.

Definition shaped_data (data : dict) : Prop :=
  forall t, exists tree,
    dict_get data (type_name t) = Some tree /\ shaped (depth t) tree.

Definition is_nan (v : value) : bool :=
  match v with
  | VFloat FNaN => true
  | _ => false
  end.

Section Specification.
Variable repr_str : string -> string.

(** The component of the key that [make_key] derives from one key field
    (of a document that has the field). *)
Definition key_component (document : dict) (header : string) : string :=
  match dict_get document header with
  | Some v =>
      if String.eqb header "alliance_color_is_red"
      then (if truthy v then "red" else "blue")
      else py_str repr_str v
  | None => ""
  end.

Definition key_path (t : DocumentTypes) (document : dict) : list string :=
  map (key_component document) (COLLECTION_KEYS t).

(** The document has no field [header]. *)
Definition lacks (document : dict) (header : string) : bool :=
  match dict_get document header with
  | Some _ => false
  | None => true
  end.

(** The first key field of its type that a document lacks. *)
Definition first_missing (t : DocumentTypes) (document : dict) : option string :=
  find (lacks document) (COLLECTION_KEYS t).

(** A field that is neither a key field of the type nor [_id]. *)
Definition payload_field (t : DocumentTypes) (k : string) : Prop :=
  ~ In k (COLLECTION_KEYS t) /\ k <> "_id".

(** [payload_field], decided. *)
Definition reaches_leaf (t : DocumentTypes) (k : string) : bool :=
  negb (existsb (String.eqb k) (COLLECTION_KEYS t) || String.eqb k "_id").

(** The value a field reaches the leaf with: stringified when the query asks
    for it and neither the field nor the collection is excluded, then null
    when it is NaN. *)
Definition sanitized_value (q : query) (collection k : string) (v : value) : value :=
  let v' :=
    if use_strings q
       && negb (is_listed (ignored_to_string_collections q) collection)
       && negb (is_listed (ignored_to_string_datapoints q) k)
       && negb (is_primitive v)
    then VStr (py_str repr_str v)
    else v in
  if is_nan v' then VNone else v'.

(** One fetched record: its collection, the type of the collection, the
    document. *)
Definition record : Type := string * DocumentTypes * dict.

(** The records of a build in the order the loops reach them: collections in
    registry order, ignored ones left out, documents in cursor order. *)
Definition fetched_from (q : query) (db : database)
           (registry : list (string * DocumentTypes)) : list record :=
  flat_map (fun entry =>
              if is_listed (ignored_collections q) (fst entry) then []
              else map (fun doc => (fst entry, snd entry, doc)) (db (fst entry)))
           registry.

Definition fetched (q : query) (db : database) : list record :=
  fetched_from q db COLLECTIONS.

(** What one record brings: the key path and the fields for the leaf. *)
Definition prepared (q : query) (r : record) : result (DocumentTypes * list string * dict) :=
  let '(collection, t, doc) := r in
  '(key, doc') <- make_key repr_str t doc ;;
  sanitized <- sanitize repr_str q collection doc' ;;
  Ok (t, key, sanitized).

Fixpoint prepared_all (q : query) (rs : list record)
  : result (list (DocumentTypes * list string * dict)) :=
  match rs with
  | [] => Ok []
  | r :: rs' =>
      c <- prepared q r ;;
      cs <- prepared_all q rs' ;;
      Ok (c :: cs)
  end.

(** The body of the inner loop, on a fetched record. *)
Definition process_record (q : query) (data : dict) (r : record) : result dict :=
  let '(collection, t, doc) := r in
  process_document repr_str q collection t data doc.

(** The record maps to the leaf at [path] of type [t]. *)
Definition maps_to (t : DocumentTypes) (path : list string) (r : record) : Prop :=
  snd (fst r) = t /\ first_missing t (snd r) = None /\ key_path t (snd r) = path.

(** The record does not touch field [k] of the leaf at [path] of type [t]. *)
Definition silent_on (t : DocumentTypes) (path : list string) (k : string)
           (r : record) : Prop :=
  maps_to t path r -> dict_get (snd r) k = None.

(** The leaf at [path] of type [t] after merging, in order, the fields of
    the contributions that map to it. *)
Fixpoint merged (t : DocumentTypes) (path : list string)
         (cs : list (DocumentTypes * list string * dict)) (acc : option dict)
  : option dict :=
  match cs with
  | [] => acc
  | (t', path', fields) :: cs' =>
      merged t path cs'
        (if DocumentTypes_eq_dec t' t then
           if path_eq_dec path' path then
             Some (dict_update (match acc with Some leaf => leaf | None => [] end) fields)
           else acc
         else acc)
  end.

End Specification.

(** ** The other endpoints of [api.py], and [STATIC_FILE_TYPES] of [db.py] *)

Definition STATIC_FILE_TYPES : list string := ["match-schedule"; "team-list"].

(** A database as [read_collection] sees it: the names of the collections it
    holds, and the documents [db[name].find()] yields for a name. *)
Record mongo : Type := mkmongo {
  list_collection_names : list string;
  find_in : database
}.

(** What an endpoint returns: a value that FastAPI serialises with status
    200, or a [JSONResponse] with its content and status code. *)
Inductive response : Type :=
| Returned (body : value)
| JSONResponse (content : value) (status_code : Z).

(** [client["static"][static_type].find_one({"event_key": event_key})], for
    every file type and event key. *)
Definition static_files : Type := string -> string -> option dict.

Section Endpoints.
(** [serialize_documents] of [grosbeak/util.py], which is not among the
    sources at hand: any function from the documents to the value returned. *)
Variable serialize_documents : list dict -> value.

Definition read_collection (collection_name : string) (db : mongo) : response :=
  if existsb (String.eqb collection_name) (map fst COLLECTIONS)
     && existsb (String.eqb collection_name) (list_collection_names db)
  then Returned (serialize_documents (find_in db collection_name))
  else JSONResponse (VDict [("error", VStr "Collection not found/allowed")]) 404.

Definition read_static_json (static : static_files) (static_type event_key : string)
  : result response :=
  if negb (existsb (String.eqb static_type) STATIC_FILE_TYPES) then
    Ok (JSONResponse (VDict [("error", VStr "Static file type not found/allowed")]) 404)
  else
    match static static_type event_key with
    | None => Ok (JSONResponse (VDict [("error", VStr "Static file not found")]) 404)
    | Some document =>
        data <- subscript document "data" ;;
        Ok (JSONResponse data 200)
    end.

Definition read_match_schedule (static : static_files) (event_key : string)
  : result response :=
  read_static_json static "match-schedule" event_key.

Definition read_team_list (static : static_files) (event_key : string)
  : result response :=
  read_static_json static "team-list" event_key.

End Endpoints.

(** ** More vocabulary *)

(** The dicts [{k1: {k2: ... {kn: v}}}]. *)
Definition nested (path : list string) (v : value) : value :=
  fold_right (fun k inner => VDict [(k, inner)]) v path.

(** The fetched record comes from a collection of type [t]. *)
Definition of_type (t : DocumentTypes) (r : string * DocumentTypes * dict) : bool :=
  if DocumentTypes_eq_dec (snd (fst r)) t then true else false.

(** An int that [math.isnan] accepts. *)
Definition fits_double (z : Z) : Prop := (Z.abs z < DBL_OVERFLOW)%Z.

(** The field is one of the key fields listed. *)
Definition is_key_field (headers : list string) (kv : string * value) : bool :=
  existsb (String.eqb (fst kv)) headers.

(** ** Sample data *)

Module Samples.

(** Agrees with [repr] on strings of printable ASCII characters other than
    quotes and backslashes. *)
Definition quote (s : string) : string := ("'" ++ s ++ "'")%string.

Definition no_options : query := mkquery false None None None.

Definition oid (hex : string) : value :=
  VObj (mkobj hex ("ObjectId('" ++ hex ++ "')")%string true).

(** A database that holds the listed collections and no other. *)
Definition database_of (collections : list (string * list dict)) : database :=
  fun collection =>
    match dict_get collections collection with
    | Some docs => docs
    | None => []
    end.

Definition obj_tim_7_254 : dict :=
  [("_id", oid "a0"); ("match_number", VInt 7); ("team_number", VInt 254);
   ("speaker", VInt 3)].
Definition obj_team_254 : dict :=
  [("_id", oid "a1"); ("team_number", VInt 254); ("opr", VInt 10);
   ("name", VStr "Poofs")].
Definition subj_team_254 : dict :=
  [("_id", oid "a2"); ("team_number", VInt 254);
   ("driver_ability", VFloat (FFinite "3.5"))].
Definition predicted_aim_7_red : dict :=
  [("_id", oid "a3"); ("match_number", VInt 7);
   ("alliance_color_is_red", VBool true);
   ("predicted_score", VFloat (FFinite "55.5"))].
Definition tba_team_254 : dict :=
  [("_id", oid "a4"); ("team_number", VInt 254); ("name", VStr "Cheesy")].
Definition tba_team_1678 : dict :=
  [("_id", oid "a5"); ("team_number", VInt 1678); ("name", VStr "Citrus");
   ("opr", VInt 12)].
Definition picklist_254 : dict :=
  [("_id", oid "a6"); ("team_number", VInt 254); ("rank", VInt 1)].

Definition event_db : database :=
  database_of
    [ ("obj_tim", [obj_tim_7_254]);
      ("obj_team", [obj_team_254]);
      ("subj_team", [subj_team_254]);
      ("predicted_aim", [predicted_aim_7_red]);
      ("tba_team", [tba_team_254; tba_team_1678]);
      ("picklist", [picklist_254]) ].

Definition event_view : dict :=
  [ ("team",
     VDict [ ("254", VDict [ ("opr", VInt 10); ("name", VStr "Cheesy");
                             ("driver_ability", VFloat (FFinite "3.5"));
                             ("rank", VInt 1) ]);
             ("1678", VDict [ ("name", VStr "Citrus"); ("opr", VInt 12) ]) ]);
    ("tim", VDict [ ("7", VDict [ ("254", VDict [ ("speaker", VInt 3) ]) ]) ]);
    ("aim",
     VDict [ ("7", VDict [ ("red", VDict [ ("predicted_score",
                                            VFloat (FFinite "55.5")) ]) ]) ]);
    ("alliance", VDict []);
    ("auto_paths", VDict []) ].

(** The scenario of the specification. *)
Definition scenario_db : database :=
  database_of
    [ ("obj_team", [ [("team_number", VInt 254); ("opr", VInt 10)] ]);
      ("tba_team", [ [("team_number", VInt 254); ("name", VStr "Cheesy")] ]) ].

(** Three collections write the same field of one team; one value is NaN. *)
Definition writer_A : dict :=
  [("_id", oid "e1"); ("team_number", VInt 254); ("opr", VInt 10);
   ("rate", VFloat (FFinite "1.5"))].
Definition writer_B : dict :=
  [("_id", oid "e2"); ("team_number", VInt 254); ("opr", VInt 20);
   ("rate", VFloat FNaN)].
Definition writer_C : dict :=
  [("_id", oid "e3"); ("team_number", VInt 254); ("opr", VInt 30)].

Definition three_writers_db : database :=
  database_of
    [ ("obj_team", [writer_A]); ("tba_team", [writer_B]);
      ("pickability", [writer_C]) ].

(** The scenario of the specification with a NaN, followed by a record of
    a third collection that sets [opr] again. *)
Definition union_A : dict :=
  [("team_number", VInt 254); ("opr", VInt 10); ("rate", VFloat FNaN)].
Definition union_B : dict := [("team_number", VInt 254); ("name", VStr "Cheesy")].
Definition union_C : dict := [("team_number", VInt 254); ("opr", VInt 30)].

Definition overwritten_union_db : database :=
  database_of
    [ ("obj_team", [union_A]); ("tba_team", [union_B]);
      ("pickability", [union_C]) ].

(** Numbers that are not finite. *)
Definition nonfinite_doc : dict :=
  [("_id", oid "b1"); ("team_number", VInt 254); ("opr", VFloat FNaN);
   ("epa", VFloat (FInf false)); ("drop", VFloat (FInf true))].

Definition nonfinite_db : database :=
  database_of [ ("obj_team", [nonfinite_doc]); ("tba_team", [tba_team_1678]) ].

Definition nonfinite_view : dict :=
  [ ("team",
     VDict [ ("254", VDict [ ("opr", VNone); ("epa", VFloat (FInf false));
                             ("drop", VFloat (FInf true)) ]);
             ("1678", VDict [ ("name", VStr "Citrus"); ("opr", VInt 12) ]) ]);
    ("tim", VDict []); ("aim", VDict []); ("alliance", VDict []);
    ("auto_paths", VDict []) ].

Definition strings_everywhere : query := mkquery true None None None.

(** Records that lack [team_number], in collections of two types. *)
Definition keyless_team_doc : dict := [("_id", oid "c1"); ("opr", VInt 1)].


(** A record with values that are not primitives. *)
Definition pit_doc : dict :=
  [("_id", oid "d1"); ("team_number", VInt 254);
   ("drivetrain", VStr "swerve");
   ("motors", VList [VInt 4; VStr "kraken"]);
   ("dimensions", VDict [("width", VFloat (FFinite "27.5"))]);
   ("weight", VFloat FNaN)].

(** [pit_doc] as [make_key] and [serialize_viewer_document] leave it. *)
Definition pit_sanitized : dict :=
  [("drivetrain", VStr "swerve");
   ("motors", VList [VInt 4; VStr "kraken"]);
   ("dimensions", VDict [("width", VFloat (FFinite "27.5"))]);
   ("weight", VFloat FNaN)].

Definition strings_but_dimensions : query :=
  mkquery true None (Some ["dimensions"]) None.

Definition pit_fields : dict :=
  [("drivetrain", VStr "swerve"); ("motors", VStr "[4, 'kraken']");
   ("dimensions", VDict [("width", VFloat (FFinite "27.5"))]);
   ("weight", VNone)].

Definition without_tba_team : query :=
  mkquery false (Some ["tba_team"]) None None.

(** [event_db] with other documents in [tba_team]. *)
Definition event_db_other_tba : database :=
  database_of
    [ ("obj_tim", [obj_tim_7_254]);
      ("obj_team", [obj_team_254]);
      ("subj_team", [subj_team_254]);
      ("predicted_aim", [predicted_aim_7_red]);
      ("tba_team", [writer_B]);
      ("picklist", [picklist_254]) ].


Definition aim_doc : dict :=
  [("match_number", VInt 12); ("alliance_color_is_red", VInt 1);
   ("predicted_score", VInt 40)].

(** A tree of the [tim] type, and a dict whose field is not a dict. *)
Definition tim_tree : value :=
  VDict [("7", VDict [("254", VDict [("speaker", VInt 3)])])].

Definition flat_dict : value := VDict [("speaker", VInt 3)].

(** A pit record alone, and its view when everything is stringified. *)
Definition pit_db : database := database_of [("raw_obj_pit", [pit_doc])].

Definition pit_view : dict :=
  [ ("team",
     VDict [ ("254", VDict [ ("drivetrain", VStr "swerve");
                             ("motors", VStr "[4, 'kraken']");
                             ("dimensions", VStr "{'width': 27.5}");
                             ("weight", VNone) ]) ]);
    ("tim", VDict []); ("aim", VDict []); ("alliance", VDict []);
    ("auto_paths", VDict []) ].

(** Two documents of one collection for the same team. *)
Definition repeat_db : database := database_of [("obj_team", [union_A; union_C])].

Definition repeat_view : dict :=
  [ ("team", VDict [ ("254", VDict [ ("opr", VInt 30); ("rate", VNone) ]) ]);
    ("tim", VDict []); ("aim", VDict []); ("alliance", VDict []);
    ("auto_paths", VDict []) ].

(** [event_db] without its [aim] and [tim] collections. *)
Definition teams_only_db : database :=
  database_of
    [ ("obj_team", [obj_team_254]);
      ("subj_team", [subj_team_254]);
      ("tba_team", [tba_team_254; tba_team_1678]);
      ("picklist", [picklist_254]) ].

Definition teams_only_view : dict :=
  [ ("team",
     VDict [ ("254", VDict [ ("opr", VInt 10); ("name", VStr "Cheesy");
                             ("driver_ability", VFloat (FFinite "3.5"));
                             ("rank", VInt 1) ]);
             ("1678", VDict [ ("name", VStr "Citrus"); ("opr", VInt 12) ]) ]);
    ("tim", VDict []); ("aim", VDict []); ("alliance", VDict []);
    ("auto_paths", VDict []) ].

(** Only [tba_team] holds documents. *)
Definition tba_only_db : database := database_of [("tba_team", [tba_team_254])].

(** A database with a collection that the registry does not name. *)
Definition with_secrets : mongo :=
  mkmongo ["obj_team"; "secrets"]
          (fun collection =>
             if String.eqb collection "secrets" then [keyless_team_doc]
             else event_db collection).

Definition without_secrets : mongo := mkmongo ["obj_team"] event_db.

Definition as_list (docs : list dict) : value := VList (map VDict docs).

End Samples.

(** ** Facts about dictionaries *)

Section DictFacts.
Context {V : Type}.
Implicit Types (d new : list (string * V)) (k : string) (v : V).

Lemma dict_get_set_eq d k v : dict_get (dict_set d k v) k = Some v.
Proof.
  induction d as [|[k' v'] d IH]; simpl.
  - now rewrite String.eqb_refl.
  - destruct (String.eqb k' k) eqn:E; simpl.
    + now rewrite String.eqb_refl.
    + now rewrite E.
Qed.

Lemma dict_get_set_ne d k k' v :
  k <> k' -> dict_get (dict_set d k v) k' = dict_get d k'.
Proof.
  intros Hne. induction d as [|[k0 v0] d IH]; simpl.
  - destruct (String.eqb_spec k k'); [contradiction | reflexivity].
  - destruct (String.eqb_spec k0 k) as [->|Hk]; simpl.
    + destruct (String.eqb_spec k k'); [contradiction | reflexivity].
    + now rewrite IH.
Qed.

Lemma dict_get_set d k k' v :
  dict_get (dict_set d k v) k' =
  if String.eqb k k' then Some v else dict_get d k'.
Proof.
  destruct (String.eqb_spec k k') as [->|Hne].
  - apply dict_get_set_eq.
  - now apply dict_get_set_ne.
Qed.

Lemma dict_get_pop_eq d k : dict_get (dict_pop d k) k = None.
Proof.
  induction d as [|[k' v'] d IH]; simpl; [reflexivity|].
  destruct (String.eqb k' k) eqn:E; simpl; [assumption|].
  now rewrite E.
Qed.

Lemma dict_get_pop_ne d k k' :
  k <> k' -> dict_get (dict_pop d k) k' = dict_get d k'.
Proof.
  intros Hne. induction d as [|[k0 v0] d IH]; simpl; [reflexivity|].
  destruct (String.eqb_spec k0 k) as [->|Hk]; simpl.
  - destruct (String.eqb_spec k k'); [contradiction | assumption].
  - now rewrite IH.
Qed.

Lemma dict_get_pop_none d k k' :
  dict_get d k' = None -> dict_get (dict_pop d k) k' = None.
Proof.
  intros H. destruct (string_dec k k') as [->|Hne].
  - apply dict_get_pop_eq.
  - now rewrite dict_get_pop_ne.
Qed.

Lemma dict_get_none_keys d k :
  dict_get d k = None <-> existsb (String.eqb k) (dict_keys d) = false.
Proof.
  induction d as [|[k' v'] d IH]; simpl; [tauto|].
  rewrite (String.eqb_sym k k').
  destruct (String.eqb k' k); simpl; [split; discriminate | exact IH].
Qed.

Lemma dict_keys_pop_unique d k :
  unique_keys d = true -> unique_keys (dict_pop d k) = true.
Proof.
  induction d as [|[k' v'] d IH]; simpl; [reflexivity|].
  intros H. apply andb_prop in H as [Hk Hd].
  destruct (String.eqb k' k) eqn:E; simpl; [now apply IH|].
  rewrite IH by assumption. rewrite andb_true_r.
  apply negb_true_iff in Hk. apply negb_true_iff.
  apply dict_get_none_keys. apply dict_get_pop_none.
  now apply dict_get_none_keys.
Qed.

(** [update] leaves alone the keys its argument does not have. *)
Lemma dict_get_update_none d new k :
  dict_get new k = None -> dict_get (dict_update d new) k = dict_get d k.
Proof.
  unfold dict_update. revert d.
  induction new as [|[k' v'] new IH]; intros d H; simpl in *; [reflexivity|].
  destruct (String.eqb_spec k' k) as [->|Hne]; [discriminate|].
  rewrite IH by assumption. now apply dict_get_set_ne.
Qed.

(** [update] overwrites the keys its argument has. *)
Lemma dict_get_update_some d new k v :
  unique_keys new = true -> dict_get new k = Some v ->
  dict_get (dict_update d new) k = Some v.
Proof.
  unfold dict_update. revert d.
  induction new as [|[k' v'] new IH]; intros d Hu H; simpl in *; [discriminate|].
  apply andb_prop in Hu as [Hk Hu].
  destruct (String.eqb_spec k' k) as [->|Hne].
  - injection H as ->.
    apply negb_true_iff, dict_get_none_keys in Hk.
    fold (dict_update (dict_set d k v) new).
    rewrite dict_get_update_none by assumption.
    apply dict_get_set_eq.
  - now apply IH.
Qed.

Lemma dict_keys_set_present d k v v0 :
  dict_get d k = Some v0 -> dict_keys (dict_set d k v) = dict_keys d.
Proof.
  induction d as [|[k' v'] d IH]; simpl; [discriminate|].
  destruct (String.eqb_spec k' k) as [->|Hne]; simpl; [reflexivity|].
  intros H. now rewrite IH.
Qed.
End DictFacts.

(** ** Facts about the error monad and [reduce] *)

Lemma bind_ok_inv {A B : Type} (m : result A) (f : A -> result B) (b : B) :
  bind m f = Ok b -> exists a, m = Ok a /\ f a = Ok b.
Proof. destruct m as [a|e]; simpl; [eauto | discriminate]. Qed.

Lemma reduce_app {A B : Type} (f : A -> B -> result A) (xs ys : list B) (a : A) :
  reduce f (xs ++ ys) a = bind (reduce f xs a) (reduce f ys).
Proof.
  revert a. induction xs as [|x xs IH]; intros a; simpl; [reflexivity|].
  destruct (f a x) as [a'|e]; simpl; [apply IH | reflexivity].
Qed.

Lemma reduce_ext {A B : Type} (f g : A -> B -> result A) (xs : list B) (a : A) :
  (forall a' x, In x xs -> f a' x = g a' x) -> reduce f xs a = reduce g xs a.
Proof.
  revert a. induction xs as [|x xs IH]; intros a H; simpl; [reflexivity|].
  rewrite (H a x) by now left.
  destruct (g a x) as [a'|e]; simpl; [|reflexivity].
  apply IH. intros a'' y Hy. apply H. now right.
Qed.

(** ** [make_key] in closed form *)

Section KeyFacts.
Variable repr_str : string -> string.

Lemma find_ext_in {A : Type} (f g : A -> bool) (l : list A) :
  (forall x, In x l -> f x = g x) -> find f l = find g l.
Proof.
  induction l as [|x l IH]; intros H; simpl; [reflexivity|].
  rewrite (H x) by now left.
  destruct (g x); [reflexivity|]. apply IH. intros y Hy. apply H. now right.
Qed.

Lemma make_key_loop_spec (headers : list string) :
  NoDup headers ->
  forall (document : dict) (keys : list string),
    make_key_loop repr_str headers document keys =
    match find (lacks document) headers with
    | Some header => Raise (KeyError header)
    | None => Ok (keys ++ map (key_component repr_str document) headers,
                  fold_left dict_pop headers document)
    end.
Proof.
  induction 1 as [|h rest Hnotin Hnd IH]; intros document keys; simpl.
  - now rewrite app_nil_r.
  - unfold lacks at 1, key_component at 1, subscript.
    destruct (dict_get document h) as [v|] eqn:Hget.
    + assert (Hstep :
        (k <- (if String.eqb h "alliance_color_is_red"
               then alliance_color_is_red <-
                      match dict_get document "alliance_color_is_red" with
                      | Some v0 => Ok v0
                      | None => Raise (KeyError "alliance_color_is_red")
                      end ;;
                    Ok (if truthy alliance_color_is_red then "red" else "blue")
               else v0 <- Ok v ;; Ok (py_str repr_str v0)) ;;
         make_key_loop repr_str rest (dict_pop document h) (keys ++ [k])) =
        make_key_loop repr_str rest (dict_pop document h)
          (keys ++ [if String.eqb h "alliance_color_is_red"
                    then (if truthy v then "red" else "blue")
                    else py_str repr_str v])).
      { destruct (String.eqb_spec h "alliance_color_is_red") as [E|E].
        - rewrite <- E, Hget. reflexivity.
        - reflexivity. }
      rewrite Hstep, IH. clear Hstep.
      assert (Hsame : forall h', In h' rest ->
                dict_get (dict_pop document h) h' = dict_get document h').
      { intros h' Hin. apply dict_get_pop_ne. intros ->. contradiction. }
      rewrite (find_ext_in (lacks (dict_pop document h)) (lacks document)).
      2:{ intros h' Hin. unfold lacks. now rewrite Hsame. }
      destruct (find (lacks document) rest); [reflexivity|].
      rewrite <- app_assoc. simpl. f_equal. f_equal. f_equal. f_equal.
      apply map_ext_in. intros h' Hin. unfold key_component. now rewrite Hsame.
    + destruct (String.eqb_spec h "alliance_color_is_red") as [E|E].
      * rewrite <- E, Hget. reflexivity.
      * reflexivity.
Qed.

Lemma COLLECTION_KEYS_NoDup (t : DocumentTypes) : NoDup (COLLECTION_KEYS t).
Proof.
  destruct t; simpl; repeat constructor; simpl; intuition discriminate.
Qed.

Lemma make_key_spec (t : DocumentTypes) (document : dict) :
  make_key repr_str t document =
  match first_missing t document with
  | Some header => Raise (KeyError header)
  | None => Ok (key_path repr_str t document,
                fold_left dict_pop (COLLECTION_KEYS t) document)
  end.
Proof.
  unfold make_key. rewrite make_key_loop_spec by apply COLLECTION_KEYS_NoDup.
  reflexivity.
Qed.

Lemma dict_get_pops (headers : list string) (document : dict) (k : string) :
  dict_get (fold_left dict_pop headers document) k =
  if existsb (String.eqb k) headers then None else dict_get document k.
Proof.
  revert document. induction headers as [|h rest IH]; intros document; simpl.
  - reflexivity.
  - rewrite IH. destruct (existsb (String.eqb k) rest).
    + now rewrite orb_true_r.
    + rewrite orb_false_r. destruct (String.eqb_spec k h) as [->|Hne].
      * apply dict_get_pop_eq.
      * apply dict_get_pop_ne. congruence.
Qed.

End KeyFacts.

(** ** Paths in a tree of nested dicts *)

Lemma reduce_get_none (path : list string) :
  get_by_path VNone path = Ok VNone.
Proof. induction path as [|k rest IH]; simpl; [reflexivity | exact IH]. Qed.

Lemma shaped_dict (n : nat) (v : value) :
  shaped n v -> exists kvs, v = VDict kvs.
Proof. destruct n, v; simpl; intros H; try contradiction; eauto. Qed.

Lemma shaped_child (n : nat) (kvs : dict) (k : string) (child : value) :
  shaped (S n) (VDict kvs) -> dict_get kvs k = Some child -> shaped n child.
Proof. simpl. intros H Hget. exact (H k child Hget). Qed.

Lemma shaped_set (n : nat) (kvs : dict) (k : string) (child : value) :
  shaped (S n) (VDict kvs) -> shaped n child ->
  shaped (S n) (VDict (dict_set kvs k child)).
Proof.
  simpl. intros H Hc k' c'. rewrite dict_get_set.
  destruct (String.eqb k k'); [intros [= <-]; exact Hc | apply H].
Qed.

Lemma shaped_empty (n : nat) : shaped n (VDict []).
Proof. destruct n; simpl; [exact I | intros k c H; discriminate]. Qed.

(** On a tree of the right depth [get_by_path] never raises: it returns
    what is stored at the path, and None when a level is missing. *)
Lemma get_by_path_shaped (path : list string) :
  forall tree, shaped (length path) tree ->
    get_by_path tree path =
    Ok (match lookup_path tree path with Some v => v | None => VNone end).
Proof.
  induction path as [|k rest IH]; intros tree Hs; [reflexivity|].
  destruct (shaped_dict _ _ Hs) as [kvs ->].
  change (get_by_path (VDict kvs) (k :: rest))
    with (d <- (if truthy (VDict kvs) then py_get (VDict kvs) k else Ok VNone) ;;
          get_by_path d rest).
  destruct kvs as [|kv kvs']; [simpl; apply reduce_get_none|].
  change (truthy (VDict (kv :: kvs'))) with true. cbv iota.
  unfold py_get, bind.
  change (lookup_path (VDict (kv :: kvs')) (k :: rest))
    with (match dict_get (kv :: kvs') k with
          | Some child => lookup_path child rest
          | None => None
          end).
  destruct (dict_get (kv :: kvs') k) as [child|] eqn:Hget.
  - apply IH. exact (shaped_child _ _ _ _ Hs Hget).
  - apply reduce_get_none.
Qed.

(** What sits at a path of full depth is a leaf, a dict. *)
Lemma lookup_path_leaf (path : list string) :
  forall tree v, shaped (length path) tree -> lookup_path tree path = Some v ->
    exists leaf, v = VDict leaf.
Proof.
  induction path as [|k rest IH]; intros tree v Hs H.
  - simpl in H. injection H as <-. exact (shaped_dict _ _ Hs).
  - destruct (shaped_dict _ _ Hs) as [kvs ->]. simpl in H.
    destruct (dict_get kvs k) as [child|] eqn:Hget; [|discriminate].
    exact (IH child v (shaped_child _ _ _ _ Hs Hget) H).
Qed.

(** On a tree of the right depth [set_by_path] never raises: it stores the
    leaf at the path and leaves every other path of that depth alone. *)
Lemma set_by_path_shaped (path : list string) (leaf : dict) :
  path <> [] ->
  forall tree, shaped (length path) tree ->
    exists tree',
      set_by_path tree path (VDict leaf) = Ok tree' /\
      shaped (length path) tree' /\
      lookup_path tree' path = Some (VDict leaf) /\
      forall p, length p = length path -> p <> path ->
                lookup_path tree' p = lookup_path tree p.
Proof.
  induction path as [|k rest IH]; intros Hne tree Hs; [contradiction|].
  destruct (shaped_dict _ _ Hs) as [kvs ->].
  destruct rest as [|k2 rest'].
  - exists (VDict (dict_set kvs k (VDict leaf))).
    split; [reflexivity|]. split; [|split].
    + apply shaped_set; [exact Hs | exact I].
    + cbn [lookup_path]. now rewrite dict_get_set_eq.
    + intros [|k' [|? ?]] Hlen Hp; try discriminate.
      cbn [lookup_path]. rewrite dict_get_set_ne; [reflexivity | congruence].
  - set (rest := k2 :: rest') in *.
    set (child := match dict_get kvs k with Some c => c | None => VDict [] end).
    assert (Hchild : shaped (length rest) child).
    { unfold child. destruct (dict_get kvs k) as [c|] eqn:Hget.
      - exact (shaped_child _ _ _ _ Hs Hget).
      - apply shaped_empty. }
    destruct (IH ltac:(discriminate) child Hchild)
      as (child' & Hset & Hs' & Hlook & Hother).
    exists (VDict (dict_set kvs k child')).
    split; [|split; [|split]].
    + change (set_by_path (VDict kvs) (k :: rest) (VDict leaf))
        with (c <- set_by_path child rest (VDict leaf) ;;
              Ok (VDict (dict_set kvs k c))).
      now rewrite Hset.
    + apply shaped_set; assumption.
    + cbn [lookup_path]. now rewrite dict_get_set_eq.
    + intros [|k' p'] Hlen Hp; [discriminate|].
      cbn [lookup_path]. rewrite dict_get_set.
      destruct (String.eqb_spec k k') as [<-|Hk].
      * assert (Hp' : p' <> rest) by congruence.
        assert (Hlen' : length p' = length rest) by (subst rest; simpl in *; lia).
        rewrite (Hother p' Hlen' Hp'). unfold child.
        destruct (dict_get kvs k); [reflexivity|].
        destruct p' as [|k3 p'']; [subst rest; discriminate|reflexivity].
      * reflexivity.
Qed.

(** ** One document *)

Lemma type_name_inj (t t' : DocumentTypes) : type_name t = type_name t' -> t = t'.
Proof. destruct t, t'; simpl; intros H; try reflexivity; discriminate. Qed.

Lemma depth_pos (t : DocumentTypes) : depth t <> 0.
Proof. destruct t; discriminate. Qed.

Lemma shaped_data_set (data : dict) (t : DocumentTypes) (tree : value) :
  shaped_data data -> shaped (depth t) tree ->
  shaped_data (dict_set data (type_name t) tree).
Proof.
  intros Hd Hs t'. rewrite dict_get_set.
  destruct (String.eqb_spec (type_name t) (type_name t')) as [E|E].
  - apply type_name_inj in E. subst t'. eauto.
  - apply Hd.
Qed.

Section Step.
Variable repr_str : string -> string.
Variable q : query.

Lemma key_path_length (t : DocumentTypes) (doc : dict) :
  length (key_path repr_str t doc) = depth t.
Proof. unfold key_path, depth. apply length_map. Qed.

Lemma prepared_spec (collection : string) (t : DocumentTypes) (doc : dict) :
  prepared repr_str q (collection, t, doc) =
  match first_missing t doc with
  | Some header => Raise (KeyError header)
  | None =>
      fields <- sanitize repr_str q collection
                  (fold_left dict_pop (COLLECTION_KEYS t) doc) ;;
      Ok (t, key_path repr_str t doc, fields)
  end.
Proof.
  unfold prepared. rewrite make_key_spec.
  destruct (first_missing t doc); reflexivity.
Qed.

(** Storing a leaf at a key of a tree of type [t], as the view sees it. *)
Lemma leaf_at_stored (data : dict) (t : DocumentTypes) (key : list string)
      (tree tree' : value) (old : option dict) (fields : dict) :
  dict_get data (type_name t) = Some tree ->
  leaf_at data t key = old ->
  lookup_path tree' key =
    Some (VDict (dict_update (match old with Some l => l | None => [] end) fields)) ->
  (forall p, length p = length key -> p <> key ->
             lookup_path tree' p = lookup_path tree p) ->
  length key = depth t ->
  forall t' p, length p = depth t' ->
    leaf_at (dict_set data (type_name t) tree') t' p =
    merged t' p [(t, key, fields)] (leaf_at data t' p).
Proof.
  intros Hget Hold Hlook Hother Hlen t' p Hp. unfold leaf_at at 1.
  rewrite dict_get_set. simpl merged.
  destruct (DocumentTypes_eq_dec t t') as [<-|Ht].
  - rewrite String.eqb_refl.
    destruct (path_eq_dec key p) as [<-|Hk].
    + rewrite Hlook, Hold. reflexivity.
    + rewrite Hother by congruence. unfold leaf_at. now rewrite Hget.
  - destruct (String.eqb_spec (type_name t) (type_name t')) as [E|E].
    + apply type_name_inj in E. contradiction.
    + reflexivity.
Qed.

(** On a well-shaped view the tree operations of the loop body never raise:
    the body fails exactly when the record cannot be prepared, and otherwise
    merges the prepared fields into the leaf at the key of the record. *)
Lemma process_document_step (collection : string) (t : DocumentTypes)
      (data doc : dict) :
  shaped_data data ->
  match prepared repr_str q (collection, t, doc) with
  | Raise e => process_document repr_str q collection t data doc = Raise e
  | Ok (_, key, fields) =>
      exists data',
        process_document repr_str q collection t data doc = Ok data' /\
        shaped_data data' /\
        dict_keys data' = dict_keys data /\
        (forall t', t' <> t ->
           dict_get data' (type_name t') = dict_get data (type_name t')) /\
        (forall t' p, length p = depth t' ->
           leaf_at data' t' p = merged t' p [(t, key, fields)] (leaf_at data t' p))
  end.
Proof.
  intros Hd. rewrite prepared_spec. unfold process_document.
  rewrite make_key_spec.
  destruct (first_missing t doc) as [h|]; [reflexivity|].
  cbn [bind].
  destruct (Hd t) as (tree & Hget & Hs).
  unfold subscript. rewrite Hget. cbn [bind].
  set (key := key_path repr_str t doc).
  set (doc' := fold_left dict_pop (COLLECTION_KEYS t) doc).
  assert (Hlen : length key = depth t) by apply key_path_length.
  assert (Hne : key <> []).
  { intros E. rewrite E in Hlen. symmetry in Hlen. exact (depth_pos t Hlen). }
  rewrite <- Hlen in Hs.
  rewrite (get_by_path_shaped key tree Hs). cbn [bind].
  destruct (lookup_path tree key) as [v|] eqn:Hlook.
  - destruct (lookup_path_leaf key tree v Hs Hlook) as [old ->].
    cbn [bind].
    destruct (sanitize repr_str q collection doc') as [fields|e]; [|reflexivity].
    cbn [bind py_update].
    destruct (set_by_path_shaped key (dict_update old fields) Hne tree Hs)
      as (tree' & Hset & Hs' & Hlook' & Hother).
    rewrite Hset. cbn [bind].
    exists (dict_set data (type_name t) tree'). split; [reflexivity|].
    split; [apply shaped_data_set; [exact Hd | now rewrite <- Hlen]|].
    split; [exact (dict_keys_set_present data _ tree' tree Hget)|].
    split.
    + intros t' Ht. apply dict_get_set_ne. intros E.
      apply type_name_inj in E. congruence.
    + apply (leaf_at_stored data t key tree tree' (Some old) fields); auto.
      unfold leaf_at. now rewrite Hget, Hlook.
  - destruct (set_by_path_shaped key [] Hne tree Hs)
      as (tree1 & Hset1 & Hs1 & Hlook1 & Hother1).
    rewrite Hset1. cbn [bind].
    destruct (sanitize repr_str q collection doc') as [fields|e]; [|reflexivity].
    cbn [bind py_update].
    destruct (set_by_path_shaped key (dict_update [] fields) Hne tree1 Hs1)
      as (tree' & Hset & Hs' & Hlook' & Hother).
    rewrite Hset. cbn [bind].
    exists (dict_set data (type_name t) tree'). split; [reflexivity|].
    split; [apply shaped_data_set; [exact Hd | now rewrite <- Hlen]|].
    split; [exact (dict_keys_set_present data _ tree' tree Hget)|].
    split.
    + intros t' Ht. apply dict_get_set_ne. intros E.
      apply type_name_inj in E. congruence.
    + apply (leaf_at_stored data t key tree tree' None fields); auto.
      * unfold leaf_at. now rewrite Hget, Hlook.
      * intros p Hp Hpk. rewrite Hother by assumption. now apply Hother1.
Qed.

End Step.

(** ** The whole build *)

Lemma reduce_map {A B C : Type} (f : A -> B -> result A) (g : C -> B)
      (xs : list C) (a : A) :
  reduce f (map g xs) a = reduce (fun a' x => f a' (g x)) xs a.
Proof.
  revert a. induction xs as [|x xs IH]; intros a; simpl; [reflexivity|].
  destruct (f a (g x)); simpl; [apply IH | reflexivity].
Qed.

Lemma merged_app (t : DocumentTypes) (p : list string)
      (cs cs' : list (DocumentTypes * list string * dict)) (acc : option dict) :
  merged t p (cs ++ cs') acc = merged t p cs' (merged t p cs acc).
Proof.
  revert acc. induction cs as [|[[t' p'] f] cs IH]; intros acc; simpl;
    [reflexivity | apply IH].
Qed.

Lemma shaped_initial_data : shaped_data initial_data.
Proof.
  intros t. exists (VDict []). split; [destruct t; reflexivity | apply shaped_empty].
Qed.

Section Build.
Variable repr_str : string -> string.
Variable q : query.

Lemma fetched_from_app (db : database) (l1 l2 : list (string * DocumentTypes)) :
  fetched_from q db (l1 ++ l2) = fetched_from q db l1 ++ fetched_from q db l2.
Proof. unfold fetched_from. apply flat_map_app. Qed.

Lemma fetched_from_cons (db : database) (c : string) (t : DocumentTypes)
      (l : list (string * DocumentTypes)) :
  is_listed (ignored_collections q) c = false ->
  fetched_from q db ((c, t) :: l) =
  map (fun doc => (c, t, doc)) (db c) ++ fetched_from q db l.
Proof. intros H. unfold fetched_from. simpl. now rewrite H. Qed.

(** The two nested loops visit the fetched records in order. *)
Lemma process_collections_flat (db : database)
      (registry : list (string * DocumentTypes)) (data : dict) :
  reduce (process_collection repr_str q db) registry data =
  reduce (process_record repr_str q) (fetched_from q db registry) data.
Proof.
  revert data. induction registry as [|[c t] registry IH]; intros data.
  - reflexivity.
  - change (fetched_from q db ((c, t) :: registry))
      with ((if is_listed (ignored_collections q) c then []
             else map (fun doc => (c, t, doc)) (db c))
            ++ fetched_from q db registry).
    rewrite reduce_app. cbn [reduce process_collection].
    destruct (is_listed (ignored_collections q) c).
    + simpl. apply IH.
    + rewrite reduce_map. cbn [process_record].
      destruct (reduce _ (db c) data); simpl; [apply IH | reflexivity].
Qed.

Lemma get_viewer_data_flat (db : database) :
  get_viewer_data repr_str q db =
  reduce (process_record repr_str q) (fetched q db) initial_data.
Proof. apply process_collections_flat. Qed.

(** The loop over the records fails with the error of the first record that
    cannot be prepared; otherwise every leaf is the merge of the prepared
    fields that map to it. *)
Lemma run_spec (rs : list record) :
  forall data, shaped_data data ->
    match prepared_all repr_str q rs with
    | Raise e => reduce (process_record repr_str q) rs data = Raise e
    | Ok cs =>
        exists data',
          reduce (process_record repr_str q) rs data = Ok data' /\
          shaped_data data' /\
          dict_keys data' = dict_keys data /\
          (forall t, (forall r, In r rs -> snd (fst r) <> t) ->
             dict_get data' (type_name t) = dict_get data (type_name t)) /\
          (forall t p, length p = depth t ->
             leaf_at data' t p = merged t p cs (leaf_at data t p))
    end.
Proof.
  induction rs as [|[[c t] doc] rs IH]; intros data Hd.
  - simpl. exists data. repeat split; auto.
  - cbn [prepared_all reduce process_record].
    pose proof (process_document_step repr_str q c t data doc Hd) as Hstep.
    destruct (prepared repr_str q (c, t, doc)) as [[[t0 key] fields]|e] eqn:Hprep.
    2:{ rewrite Hstep. reflexivity. }
    assert (Ht0 : t0 = t).
    { rewrite prepared_spec in Hprep.
      destruct (first_missing t doc); [discriminate|].
      apply bind_ok_inv in Hprep as (f & _ & Hf). now injection Hf. }
    subst t0.
    destruct Hstep as (data1 & Hrun1 & Hd1 & Hkeys1 & Hsame1 & Hleaf1).
    rewrite Hrun1. cbn [bind].
    specialize (IH data1 Hd1).
    destruct (prepared_all repr_str q rs) as [cs|e]; [|exact IH].
    destruct IH as (data' & Hrun & Hd' & Hkeys & Hsame & Hleaf).
    exists data'. split; [exact Hrun|]. split; [exact Hd'|].
    split; [congruence|]. split.
    + intros t' Hno. rewrite Hsame.
      * apply Hsame1. intros ->. exact (Hno (c, t, doc) (or_introl eq_refl) eq_refl).
      * intros r Hr. apply Hno. now right.
    + intros t' p Hp. rewrite Hleaf by assumption.
      rewrite Hleaf1 by assumption. reflexivity.
Qed.

End Build.

(** ** What sanitizing does to a field *)

Lemma unique_keys_ext {V W : Type} (d : list (string * V)) (d' : list (string * W)) :
  dict_keys d = dict_keys d' -> unique_keys d = unique_keys d'.
Proof.
  revert d'. induction d as [|[k v] d IH]; intros [|[k' v'] d'] H;
    try discriminate; [reflexivity|].
  simpl in *. injection H as -> H. fold (dict_keys d) (dict_keys d') in H.
  rewrite H. f_equal. now apply IH.
Qed.

Lemma nan_flag (v : value) (nan : bool) :
  (if is_number v then math_isnan v else Ok false) = Ok nan -> nan = is_nan v.
Proof.
  destruct v as [| | z | [| |] | | | |]; simpl; try congruence.
  destruct (Z.abs z <? DBL_OVERFLOW)%Z; congruence.
Qed.

Lemma dict_get_nan_to_none (d s : dict) (k : string) :
  nan_to_none d = Ok s ->
  dict_get s k = option_map (fun v => if is_nan v then VNone else v) (dict_get d k).
Proof.
  revert s. induction d as [|[k' v'] d IH]; intros s H; simpl in H.
  - injection H as <-. reflexivity.
  - apply bind_ok_inv in H as (nan & Hnan & H).
    apply bind_ok_inv in H as (rest & Hrest & H).
    injection H as <-. apply nan_flag in Hnan. subst nan. simpl.
    destruct (String.eqb k' k); [reflexivity | now apply IH].
Qed.

Lemma dict_keys_nan_to_none (d s : dict) :
  nan_to_none d = Ok s -> dict_keys s = dict_keys d.
Proof.
  revert s. induction d as [|[k' v'] d IH]; intros s H; simpl in H.
  - injection H as <-. reflexivity.
  - apply bind_ok_inv in H as (nan & Hnan & H).
    apply bind_ok_inv in H as (rest & Hrest & H).
    injection H as <-. simpl. f_equal. now apply IH.
Qed.

Lemma unique_keys_pops (headers : list string) (d : dict) :
  unique_keys d = true -> unique_keys (fold_left dict_pop headers d) = true.
Proof.
  revert d. induction headers as [|h rest IH]; intros d H; simpl; [exact H|].
  apply IH. now apply dict_keys_pop_unique.
Qed.

Section Sanitize.
Variable repr_str : string -> string.
Variable q : query.

Lemma dict_get_stringify (itsd : option (list string)) (d : dict) (k : string) :
  dict_get (stringify repr_str itsd d) k =
  option_map (fun v => if is_listed itsd k then v
                       else if is_primitive v then v
                       else VStr (py_str repr_str v))
             (dict_get d k).
Proof.
  induction d as [|[k' v'] d IH]; [reflexivity|].
  cbn [stringify map fst snd]. fold (stringify repr_str itsd d).
  destruct (String.eqb_spec k' k) as [->|Hne].
  - cbn [dict_get option_map]. rewrite String.eqb_refl. cbn [option_map].
    destruct (is_listed itsd k); [|destruct (is_primitive v')];
      cbn [dict_get]; rewrite String.eqb_refl; reflexivity.
  - assert (E : String.eqb k' k = false) by now apply String.eqb_neq.
    destruct (is_listed itsd k'); [|destruct (is_primitive v')];
      cbn [dict_get]; rewrite E; exact IH.
Qed.

Lemma dict_keys_stringify (itsd : option (list string)) (d : dict) :
  dict_keys (stringify repr_str itsd d) = dict_keys d.
Proof.
  unfold dict_keys, stringify. rewrite map_map. apply map_ext.
  intros [k v]. simpl.
  destruct (is_listed itsd k); [|destruct (is_primitive v)]; reflexivity.
Qed.

(** The fields the two loops return, one by one. *)
Lemma sanitize_fields_spec (collection : string) (sanitized s : dict) :
  sanitize_fields repr_str q collection sanitized = Ok s ->
  forall k, dict_get s k =
            option_map (sanitized_value repr_str q collection k) (dict_get sanitized k).
Proof.
  unfold sanitize_fields. intros H k.
  rewrite (dict_get_nan_to_none _ _ k H). unfold sanitized_value.
  destruct (use_strings q); cbn [andb].
  - destruct (is_listed (ignored_to_string_collections q) collection); cbn [andb negb].
    + destruct (dict_get sanitized k); reflexivity.
    + rewrite dict_get_stringify.
      destruct (dict_get sanitized k) as [v|]; [|reflexivity]. cbn [option_map].
      destruct (is_listed (ignored_to_string_datapoints q) k); cbn [andb negb];
        [reflexivity|].
      destruct (is_primitive v); reflexivity.
  - destruct (dict_get sanitized k); reflexivity.
Qed.

(** The fields [sanitize] returns, one by one. *)
Lemma sanitize_spec (collection : string) (doc s : dict) :
  sanitize repr_str q collection doc = Ok s ->
  forall k, dict_get s k =
            if String.eqb k "_id" then None
            else option_map (sanitized_value repr_str q collection k) (dict_get doc k).
Proof.
  unfold sanitize, serialize_viewer_document. intros H k.
  rewrite (sanitize_fields_spec _ _ _ H k).
  destruct (String.eqb_spec k "_id") as [->|Hne].
  - now rewrite dict_get_pop_eq.
  - rewrite dict_get_pop_ne by congruence. reflexivity.
Qed.

Lemma sanitize_unique (collection : string) (doc s : dict) :
  sanitize repr_str q collection doc = Ok s ->
  unique_keys doc = true -> unique_keys s = true.
Proof.
  unfold sanitize, sanitize_fields, serialize_viewer_document. intros H Hu.
  rewrite (unique_keys_ext s _ (dict_keys_nan_to_none _ _ H)).
  destruct (use_strings q && negb (is_listed (ignored_to_string_collections q) collection)).
  - rewrite (unique_keys_ext _ _ (dict_keys_stringify _ _)).
    now apply dict_keys_pop_unique.
  - now apply dict_keys_pop_unique.
Qed.

Lemma payload_field_reaches (t : DocumentTypes) (k : string) :
  payload_field t k <-> reaches_leaf t k = true.
Proof.
  unfold payload_field, reaches_leaf.
  rewrite negb_true_iff, orb_false_iff. split.
  - intros [Hin Hid]. split.
    + destruct (existsb (String.eqb k) (COLLECTION_KEYS t)) eqn:E; [|reflexivity].
      apply existsb_exists in E as (h & Hh & E).
      apply String.eqb_eq in E. subst h. contradiction.
    + now apply String.eqb_neq.
  - intros [Hin Hid]. split.
    + intros Hk. assert (E : existsb (String.eqb k) (COLLECTION_KEYS t) = true).
      { apply existsb_exists. exists k. split; [exact Hk | apply String.eqb_refl]. }
      congruence.
    + now apply String.eqb_neq.
Qed.

(** What a record is prepared into. *)
Lemma prepared_ok (collection : string) (t t0 : DocumentTypes)
      (doc fields : dict) (key : list string) :
  prepared repr_str q (collection, t, doc) = Ok (t0, key, fields) ->
  t0 = t /\ first_missing t doc = None /\ key = key_path repr_str t doc /\
  (forall k, dict_get fields k =
             if reaches_leaf t k
             then option_map (sanitized_value repr_str q collection k) (dict_get doc k)
             else None) /\
  (unique_keys doc = true -> unique_keys fields = true).
Proof.
  rewrite prepared_spec. intros H.
  destruct (first_missing t doc); [discriminate|].
  apply bind_ok_inv in H as (s & Hs & H). injection H as <- <- <-.
  repeat split; auto.
  - intros k. rewrite (sanitize_spec _ _ _ Hs k), dict_get_pops.
    unfold reaches_leaf.
    destruct (String.eqb k "_id"); [now rewrite orb_true_r|].
    rewrite orb_false_r.
    destruct (existsb (String.eqb k) (COLLECTION_KEYS t)); reflexivity.
  - intros Hu. apply (sanitize_unique _ _ _ Hs). now apply unique_keys_pops.
Qed.

End Sanitize.

(** ** Leaves of a finished view *)

Lemma merged_keeps (t : DocumentTypes) (p : list string) (k : string)
      (cs : list (DocumentTypes * list string * dict)) :
  (forall c, In c cs -> fst (fst c) = t -> snd (fst c) = p ->
             dict_get (snd c) k = None) ->
  forall leaf, exists leaf',
    merged t p cs (Some leaf) = Some leaf' /\ dict_get leaf' k = dict_get leaf k.
Proof.
  induction cs as [|[[t' p'] f] cs IH]; intros H leaf; simpl.
  - eauto.
  - assert (Hcs : forall c, In c cs -> fst (fst c) = t -> snd (fst c) = p ->
                            dict_get (snd c) k = None).
    { intros c Hc. apply H. now right. }
    destruct (DocumentTypes_eq_dec t' t) as [Et|Et]; [|now apply IH].
    destruct (path_eq_dec p' p) as [Ep|Ep]; [|now apply IH].
    destruct (IH Hcs (dict_update leaf f)) as (leaf' & Hm & Hk).
    exists leaf'. split; [exact Hm|]. rewrite Hk.
    apply dict_get_update_none. exact (H (t', p', f) (or_introl eq_refl) Et Ep).
Qed.

Lemma merged_lacks (t : DocumentTypes) (p : list string) (k : string)
      (cs : list (DocumentTypes * list string * dict)) :
  (forall c, In c cs -> fst (fst c) = t -> dict_get (snd c) k = None) ->
  forall acc leaf,
    (forall l, acc = Some l -> dict_get l k = None) ->
    merged t p cs acc = Some leaf -> dict_get leaf k = None.
Proof.
  induction cs as [|[[t' p'] f] cs IH]; intros H acc leaf Hacc; simpl.
  - intros E. now apply Hacc.
  - assert (Hcs : forall c, In c cs -> fst (fst c) = t -> dict_get (snd c) k = None).
    { intros c Hc. apply H. now right. }
    destruct (DocumentTypes_eq_dec t' t) as [Et|Et]; [|now apply IH].
    destruct (path_eq_dec p' p) as [Ep|Ep]; [|now apply IH].
    apply IH; [exact Hcs|]. intros l [= <-].
    rewrite dict_get_update_none by exact (H (t', p', f) (or_introl eq_refl) Et).
    destruct acc as [l|]; [now apply Hacc | reflexivity].
Qed.

Lemma leaf_at_initial (t : DocumentTypes) (p : list string) :
  length p = depth t -> leaf_at initial_data t p = None.
Proof.
  intros H. destruct p as [|k p]; [symmetry in H; now apply depth_pos in H|].
  destruct t; reflexivity.
Qed.

Section View.
Variable repr_str : string -> string.
Variable q : query.

Lemma prepared_all_app_inv (rs1 rs2 : list record)
      (cs : list (DocumentTypes * list string * dict)) :
  prepared_all repr_str q (rs1 ++ rs2) = Ok cs ->
  exists cs1 cs2, cs = cs1 ++ cs2 /\
                  prepared_all repr_str q rs1 = Ok cs1 /\
                  prepared_all repr_str q rs2 = Ok cs2.
Proof.
  revert cs. induction rs1 as [|r rs1 IH]; intros cs H.
  - exists [], cs. auto.
  - cbn [app prepared_all] in H.
    apply bind_ok_inv in H as (c & Hc & H).
    apply bind_ok_inv in H as (cs' & Hcs' & H). injection H as <-.
    destruct (IH cs' Hcs') as (cs1 & cs2 & -> & H1 & H2).
    exists (c :: cs1), cs2. cbn [prepared_all]. rewrite Hc, H1. auto.
Qed.

Lemma prepared_all_from (rs : list record)
      (cs : list (DocumentTypes * list string * dict))
      (c : DocumentTypes * list string * dict) :
  prepared_all repr_str q rs = Ok cs -> In c cs ->
  exists r, In r rs /\ prepared repr_str q r = Ok c.
Proof.
  revert cs. induction rs as [|r rs IH]; intros cs H Hin.
  - injection H as <-. contradiction.
  - cbn [prepared_all] in H.
    apply bind_ok_inv in H as (c0 & Hc0 & H).
    apply bind_ok_inv in H as (cs' & Hcs' & H). injection H as <-.
    destruct Hin as [<-|Hin].
    + exists r. split; [now left | exact Hc0].
    + destruct (IH cs' Hcs' Hin) as (r' & Hr' & Hp). exists r'. split; [now right | exact Hp].
Qed.

Lemma prepared_all_each (rs : list record)
      (cs : list (DocumentTypes * list string * dict)) (r : record) :
  prepared_all repr_str q rs = Ok cs -> In r rs ->
  exists c, prepared repr_str q r = Ok c.
Proof.
  revert cs. induction rs as [|r0 rs IH]; intros cs H Hin; [contradiction|].
  cbn [prepared_all] in H.
  apply bind_ok_inv in H as (c0 & Hc0 & H).
  apply bind_ok_inv in H as (cs' & Hcs' & H).
  destruct Hin as [<-|Hin]; [eauto | exact (IH cs' Hcs' Hin)].
Qed.

(** A successful build: every record was prepared, and every leaf is the
    merge, in processing order, of the prepared fields that map to it. *)
Lemma view_spec (db : database) (data : dict) :
  get_viewer_data repr_str q db = Ok data ->
  exists cs,
    prepared_all repr_str q (fetched q db) = Ok cs /\
    shaped_data data /\
    dict_keys data = dict_keys initial_data /\
    (forall t, (forall r, In r (fetched q db) -> snd (fst r) <> t) ->
       dict_get data (type_name t) = Some (VDict [])) /\
    (forall t p, length p = depth t -> leaf_at data t p = merged t p cs None).
Proof.
  rewrite get_viewer_data_flat. intros H.
  pose proof (run_spec repr_str q (fetched q db) initial_data shaped_initial_data) as R.
  destruct (prepared_all repr_str q (fetched q db)) as [cs|e]; [|congruence].
  destruct R as (data' & Hrun & Hd & Hkeys & Hsame & Hleaf).
  assert (data' = data) by congruence. subst data'.
  exists cs. repeat split; auto.
  - intros t Hno. rewrite (Hsame t Hno). destruct t; reflexivity.
  - intros t p Hp. rewrite Hleaf by assumption. now rewrite leaf_at_initial.
Qed.

(** The last record that sets a payload field of a leaf decides its value. *)
Lemma last_writer (db : database) (data : dict) (pre post : list record)
      (c : string) (t : DocumentTypes) (doc : dict) (k : string) (v : value) :
  get_viewer_data repr_str q db = Ok data ->
  fetched q db = pre ++ (c, t, doc) :: post ->
  payload_field t k ->
  unique_keys doc = true ->
  dict_get doc k = Some v ->
  Forall (silent_on repr_str t (key_path repr_str t doc) k) post ->
  exists leaf,
    leaf_at data t (key_path repr_str t doc) = Some leaf /\
    dict_get leaf k = Some (sanitized_value repr_str q c k v).
Proof.
  intros Hview Hfetch Hpay Hu Hget Hsilent.
  destruct (view_spec db data Hview) as (cs & Hall & _ & _ & _ & Hleaf).
  rewrite Hfetch in Hall.
  apply prepared_all_app_inv in Hall as (cs1 & cs' & -> & H1 & H2).
  cbn [prepared_all] in H2.
  apply bind_ok_inv in H2 as ([[t0 key] fields] & Hc & H2).
  apply bind_ok_inv in H2 as (cs2 & Hcs2 & H2). injection H2 as <-.
  apply prepared_ok in Hc as (-> & _ & -> & Hfields & Hunique).
  rewrite Hleaf by apply key_path_length.
  rewrite merged_app. cbn [merged].
  destruct (DocumentTypes_eq_dec t t) as [_|E]; [|contradiction].
  destruct (path_eq_dec (key_path repr_str t doc) (key_path repr_str t doc))
    as [_|E]; [|contradiction].
  set (acc := match merged t (key_path repr_str t doc) cs1 None with
              | Some leaf => leaf
              | None => []
              end).
  destruct (merged_keeps t (key_path repr_str t doc) k cs2) with (leaf := dict_update acc fields)
    as (leaf & Hm & Hk).
  - intros [[t' p'] f'] Hin Et Ep. simpl in Et, Ep. subst t' p'. simpl.
    destruct (prepared_all_from post cs2 _ Hcs2 Hin) as ([[c' t'] doc'] & Hr & Hp).
    apply prepared_ok in Hp as (<- & Hmiss & Hkey & Hf' & _).
    rewrite Hf'.
    rewrite Forall_forall in Hsilent.
    rewrite (Hsilent _ Hr); [now destruct (reaches_leaf t k)|].
    repeat split; simpl; auto.
  - exists leaf. split; [exact Hm|]. rewrite Hk.
    apply dict_get_update_some; [now apply Hunique|].
    rewrite Hfields. apply payload_field_reaches in Hpay. rewrite Hpay.
    now rewrite Hget.
Qed.

End View.

(** ** Properties of [get_viewer_data] *)


Lemma get_viewer_data_ext (repr_str : string -> string) (q : query)
      (db db' : database) :
  (forall c t, In (c, t) COLLECTIONS ->
               is_listed (ignored_collections q) c = false -> db c = db' c) ->
  get_viewer_data repr_str q db = get_viewer_data repr_str q db'.
Proof.
  intros H. unfold get_viewer_data. apply reduce_ext.
  intros data [c t] Hin. unfold process_collection.
  destruct (is_listed (ignored_collections q) c) eqn:E; [reflexivity|].
  now rewrite (H c t Hin E).
Qed.

Lemma sanitized_value_primitive (repr_str : string -> string) (q : query)
      (collection k : string) (v : value) :
  is_primitive v = true ->
  sanitized_value repr_str q collection k v = if is_nan v then VNone else v.
Proof.
  intros H. unfold sanitized_value. rewrite H. cbn [negb].
  now rewrite andb_false_r.
Qed.

Section Claims.
Variable repr_str : string -> string.

(** C1, as amended.  Collections are processed in registry order and each
    record overwrites the same-named fields of the leaf: when collection [A]
    comes before collection [B] in [COLLECTIONS], both have a record for the
    same type and key path, both set payload field [X], to different values,
    and no record processed after that of [B] (a later document of [B], or a
    document of a later collection) maps to that path and sets [X], the leaf
    has [X] equal to the value of [B] as sanitized. *)
Theorem precedence_by_registry_order
        (q : query) (db : database) (data : dict)
        (A B : string) (t : DocumentTypes) (l1 l2 l3 : list (string * DocumentTypes))
        (docA docB : dict) (before after : list dict)
        (X : string) (vA vB : value) :
  get_viewer_data repr_str q db = Ok data ->
  COLLECTIONS = l1 ++ (A, t) :: l2 ++ (B, t) :: l3 ->
  is_listed (ignored_collections q) A = false ->
  is_listed (ignored_collections q) B = false ->
  In docA (db A) ->
  db B = before ++ docB :: after ->
  key_path repr_str t docA = key_path repr_str t docB ->
  payload_field t X ->
  dict_get docA X = Some vA ->
  dict_get docB X = Some vB ->
  vA <> vB ->
  unique_keys docB = true ->
  Forall (silent_on repr_str t (key_path repr_str t docB) X)
         (map (fun doc => (B, t, doc)) after ++ fetched_from q db l3) ->
  exists leaf,
    leaf_at data t (key_path repr_str t docB) = Some leaf /\
    dict_get leaf X = Some (sanitized_value repr_str q B X vB).
Proof.
  intros Hview Hreg _ HB _ HdbB _ Hpay _ HX _ Hu Hsilent.
  apply (last_writer repr_str q db data
           (fetched_from q db (l1 ++ (A, t) :: l2)
            ++ map (fun doc => (B, t, doc)) before)
           (map (fun doc => (B, t, doc)) after ++ fetched_from q db l3));
    auto.
  unfold fetched. rewrite Hreg.
  change (l1 ++ (A, t) :: l2 ++ (B, t) :: l3)
    with (l1 ++ ((A, t) :: l2) ++ (B, t) :: l3).
  rewrite app_assoc, fetched_from_app, (fetched_from_cons q db B t l3 HB), HdbB.
  rewrite map_app. cbn [map]. rewrite <- !app_assoc. reflexivity.
Qed.

(** C2, as amended.  Merging is a field-wise union: when the record of [A]
    sets payload field [X], a record of [B] processed later at the same type
    and key path sets only payload field [Y], no other record processed after
    that of [A] sets [X] at that path and none after that of [B] sets [Y],
    the leaf holds both [X] with the value of [A] and [Y] with the value of
    [B], each as sanitized. *)
Theorem field_union
        (q : query) (db : database) (data : dict)
        (pre mid post : list record) (A B : string) (t : DocumentTypes)
        (docA docB : dict) (X Y : string) (vA vB : value) :
  get_viewer_data repr_str q db = Ok data ->
  fetched q db = pre ++ (A, t, docA) :: mid ++ (B, t, docB) :: post ->
  key_path repr_str t docA = key_path repr_str t docB ->
  payload_field t X ->
  payload_field t Y ->
  dict_get docA X = Some vA ->
  dict_get docB Y = Some vB ->
  (forall k, payload_field t k -> k <> Y -> dict_get docB k = None) ->
  X <> Y ->
  unique_keys docA = true ->
  unique_keys docB = true ->
  Forall (silent_on repr_str t (key_path repr_str t docB) X) (mid ++ post) ->
  Forall (silent_on repr_str t (key_path repr_str t docB) Y) post ->
  exists leaf,
    leaf_at data t (key_path repr_str t docB) = Some leaf /\
    dict_get leaf X = Some (sanitized_value repr_str q A X vA) /\
    dict_get leaf Y = Some (sanitized_value repr_str q B Y vB).
Proof.
  intros Hview Hfetch Hkey HpX HpY HX HY Honly Hne HuA HuB HsX HsY.
  destruct (last_writer repr_str q db data pre (mid ++ (B, t, docB) :: post)
              A t docA X vA) as (leafX & HlX & HvX); auto.
  { rewrite Hkey. apply Forall_app in HsX as [Hmid Hpost].
    apply Forall_app. split; [exact Hmid|]. constructor; [|exact Hpost].
    intros _. simpl. now apply Honly. }
  destruct (last_writer repr_str q db data (pre ++ (A, t, docA) :: mid) post
              B t docB Y vB) as (leafY & HlY & HvY); auto.
  { rewrite Hfetch, <- app_assoc. reflexivity. }
  rewrite Hkey in HlX. rewrite HlX in HlY. injection HlY as <-.
  exists leafX. auto.
Qed.

(** C3.  No key leakage: in the view of a successful build, a leaf of a
    document type holds none of the key fields of that type, and no [_id]. *)
Theorem no_key_leakage
        (q : query) (db : database) (data : dict)
        (t : DocumentTypes) (p : list string) (leaf : dict) (k : string) :
  get_viewer_data repr_str q db = Ok data ->
  length p = depth t ->
  leaf_at data t p = Some leaf ->
  In k (COLLECTION_KEYS t) \/ k = "_id" ->
  dict_get leaf k = None.
Proof.
  intros Hview Hp Hleaf Hk.
  destruct (view_spec repr_str q db data Hview) as (cs & Hall & _ & _ & _ & Hm).
  rewrite (Hm t p Hp) in Hleaf.
  apply (merged_lacks t p k cs) with (acc := None); [|discriminate|exact Hleaf].
  intros [[t' p'] f] Hin Et. simpl in Et. subst t'. simpl.
  destruct (prepared_all_from repr_str q _ cs _ Hall Hin) as ([[c' t'] doc'] & _ & Hp').
  apply prepared_ok in Hp' as (<- & _ & _ & Hf & _).
  rewrite Hf.
  assert (E : reaches_leaf t k = false).
  { destruct (reaches_leaf t k) eqn:E; [|reflexivity].
    apply payload_field_reaches in E. destruct E as [Hnot Hid].
    destruct Hk; contradiction. }
  now rewrite E.
Qed.

(** C4, as amended.  A payload field whose value is a number reaches the
    leaf as null when the number is NaN and unchanged otherwise, infinities
    included, whatever the query says about strings: this is what the record
    is prepared into, and what the leaf holds when no record processed later
    sets the field at that path. *)
Theorem nan_becomes_null
        (q : query) (db : database) (data : dict) (pre post : list record)
        (c : string) (t : DocumentTypes) (doc : dict) (k : string) (v : value) :
  get_viewer_data repr_str q db = Ok data ->
  fetched q db = pre ++ (c, t, doc) :: post ->
  payload_field t k ->
  unique_keys doc = true ->
  dict_get doc k = Some v ->
  is_number v = true ->
  (exists fields,
     prepared repr_str q (c, t, doc) = Ok (t, key_path repr_str t doc, fields) /\
     dict_get fields k = Some (if is_nan v then VNone else v)) /\
  (Forall (silent_on repr_str t (key_path repr_str t doc) k) post ->
   exists leaf,
     leaf_at data t (key_path repr_str t doc) = Some leaf /\
     dict_get leaf k = Some (if is_nan v then VNone else v)).
Proof.
  intros Hview Hfetch Hpay Hu Hget Hnum.
  assert (Hprim : is_primitive v = true) by (destruct v; try discriminate; reflexivity).
  split.
  - destruct (view_spec repr_str q db data Hview) as (cs & Hall & _).
    destruct (prepared_all_each repr_str q _ cs (c, t, doc) Hall) as [[[t0 key] fields] Hp].
    { rewrite Hfetch. apply in_or_app. right. now left. }
    destruct (prepared_ok repr_str q _ _ _ _ _ _ Hp) as (-> & _ & -> & Hf & _).
    exists fields. split; [exact Hp|].
    rewrite Hf. apply payload_field_reaches in Hpay. rewrite Hpay, Hget.
    cbn [option_map]. now rewrite sanitized_value_primitive.
  - intros Hsilent.
    destruct (last_writer repr_str q db data pre post c t doc k v)
      as (leaf & Hl & Hv); auto.
    exists leaf. split; [exact Hl|].
    now rewrite Hv, sanitized_value_primitive.
Qed.


(** C6.  Selective stringification.  For every field of a record that goes
    through the two loops: with [use_strings], a value that is not a
    primitive becomes its [str] rendering, unless the field is listed in
    [ignored_to_string_datapoints] or the collection is listed in
    [ignored_to_string_collections], in which case it passes through as it
    is; a primitive is never stringified (only NaN is replaced); and without
    [use_strings] nothing is stringified at all. *)
Theorem selective_stringification
        (q : query) (collection : string) (sanitized fields : dict)
        (k : string) (v : value) :
  sanitize_fields repr_str q collection sanitized = Ok fields ->
  dict_get sanitized k = Some v ->
  (use_strings q = true -> is_primitive v = false ->
   is_listed (ignored_to_string_datapoints q) k = false ->
   is_listed (ignored_to_string_collections q) collection = false ->
   dict_get fields k = Some (VStr (py_str repr_str v))) /\
  (use_strings q = true -> is_primitive v = false ->
   is_listed (ignored_to_string_datapoints q) k = true \/
   is_listed (ignored_to_string_collections q) collection = true ->
   dict_get fields k = Some v) /\
  (is_primitive v = true ->
   dict_get fields k = Some (if is_nan v then VNone else v)) /\
  (use_strings q = false ->
   dict_get fields k = Some (if is_nan v then VNone else v)).
Proof.
  intros Hs Hget.
  rewrite (sanitize_fields_spec repr_str q _ _ _ Hs k), Hget.
  cbn [option_map]. unfold sanitized_value.
  repeat split.
  - intros -> -> -> ->. reflexivity.
  - intros -> Hprim [-> | ->]; rewrite Hprim; cbn [andb negb];
      rewrite ?andb_false_r; destruct v; try discriminate; reflexivity.
  - intros ->. cbn [negb]. now rewrite andb_false_r.
  - intros ->. reflexivity.
Qed.

(** C7.  Collection exclusion: a collection listed in [ignored_collections]
    is skipped before it is fetched, so none of its records is processed and
    the result does not depend on what it holds, even when other collections
    of the same type are present. *)
Theorem ignored_collections_contribute_nothing
        (q : query) (db db' : database) :
  (forall c, is_listed (ignored_collections q) c = false -> db c = db' c) ->
  get_viewer_data repr_str q db = get_viewer_data repr_str q db' /\
  (forall r, In r (fetched q db) ->
             is_listed (ignored_collections q) (fst (fst r)) = false).
Proof.
  intros H. split.
  - apply get_viewer_data_ext. intros c t _ Hc. now apply H.
  - intros r Hr. unfold fetched, fetched_from in Hr.
    apply in_flat_map in Hr as ([c t] & _ & Hr). simpl in Hr.
    destruct (is_listed (ignored_collections q) c) eqn:E; [contradiction|].
    apply in_map_iff in Hr as (doc & <- & _). exact E.
Qed.

(** C8.  The view of a successful build has an entry for each of the five
    document types, in the order of [COLLECTION_KEYS]; the entry is a tree,
    and an empty one when no record of that type was processed. *)
Theorem every_document_type_present
        (q : query) (db : database) (data : dict) :
  get_viewer_data repr_str q db = Ok data ->
  dict_keys data = ["team"; "tim"; "aim"; "alliance"; "auto_paths"] /\
  forall t, exists tree,
    dict_get data (type_name t) = Some (VDict tree) /\
    ((forall r, In r (fetched q db) -> snd (fst r) <> t) -> tree = []).
Proof.
  intros Hview.
  destruct (view_spec repr_str q db data Hview) as (cs & _ & Hd & Hkeys & Hempty & _).
  split; [exact Hkeys|].
  intros t. destruct (Hd t) as (tree & Hget & Hs).
  destruct (shaped_dict _ _ Hs) as [kvs ->].
  exists kvs. split; [exact Hget|].
  intros Hno. rewrite (Hempty t Hno) in Hget. congruence.
Qed.


(** C10.  [make_key] projects [alliance_color_is_red] by its truth value:
    the second component of the key of an aim record is ["red"] when the
    value is truthy and ["blue"] when it is falsy, whatever its type. *)
Theorem aim_key_by_truthiness
        (doc : dict) (m v : value) :
  dict_get doc "match_number" = Some m ->
  dict_get doc "alliance_color_is_red" = Some v ->
  make_key repr_str aim doc =
    Ok ([py_str repr_str m; if truthy v then "red" else "blue"],
        dict_pop (dict_pop doc "match_number") "alliance_color_is_red") /\
  (nth 1 (key_path repr_str aim doc) "" = "red" \/
   nth 1 (key_path repr_str aim doc) "" = "blue") /\
  truthy (VBool true) = true /\ truthy (VInt 1) = true /\
  (forall ch s, truthy (VStr (String ch s)) = true) /\
  (forall x xs, truthy (VList (x :: xs)) = true) /\
  (forall kv kvs, truthy (VDict (kv :: kvs)) = true) /\
  truthy (VBool false) = false /\ truthy (VInt 0) = false /\
  truthy VNone = false /\ truthy (VStr "") = false.
Proof.
  intros Hm Hv. split; [|split].
  - rewrite make_key_spec. unfold first_missing, key_path, key_component, lacks.
    cbn [COLLECTION_KEYS find map fold_left]. rewrite Hm, Hv. reflexivity.
  - unfold key_path, key_component. cbn [COLLECTION_KEYS map nth].
    rewrite Hv. cbn. destruct (truthy v); auto.
  - repeat split; reflexivity.
Qed.

End Claims.

(** ** The properties on the sample data *)

Import Samples.

Ltac silent :=
  unfold silent_on, maps_to;
  let Ht := fresh "Ht" in
  let Hk := fresh "Hk" in
  intros (Ht & _ & Hk);
  first [ reflexivity
        | discriminate Ht
        | vm_compute in Hk; discriminate Hk ].

Ltac payload :=
  unfold payload_field; split; [simpl; intuition discriminate | discriminate].

Lemma precedence_by_registry_order_witness :
  exists leaf,
    leaf_at event_view team ["254"] = Some leaf /\
    dict_get leaf "name" = Some (VStr "Cheesy").
Proof.
  apply (precedence_by_registry_order quote no_options event_db event_view
           "obj_team" "tba_team" team
           [("raw_obj_pit", team); ("tba_tim", tim); ("obj_tim", tim)]
           [("subj_team", team); ("predicted_aim", aim); ("predicted_team", team)]
           [("pickability", team); ("picklist", team);
            ("predicted_alliances", alliance); ("auto_paths", auto_paths);
            ("subj_tim", tim)]
           obj_team_254 tba_team_254 [] [tba_team_1678]
           "name" (VStr "Poofs") (VStr "Cheesy")).
  - reflexivity.
  - reflexivity.
  - reflexivity.
  - reflexivity.
  - now left.
  - reflexivity.
  - reflexivity.
  - payload.
  - reflexivity.
  - reflexivity.
  - discriminate.
  - reflexivity.
  - repeat constructor; silent.
Defined.

(** C1 fails as stated.  [obj_team] comes before [tba_team] in the registry
    and both have a record for team 254 that sets [opr], [rate] and [_id],
    to different values; the leaf has none of the values of [tba_team]:
    [opr] is the value of [pickability], which is processed later; [rate],
    NaN in [tba_team], is null; [_id] is not in the leaf. *)
Lemma precedence_counterexample :
  (exists l1 l2 l3,
     COLLECTIONS = l1 ++ ("obj_team", team) :: l2 ++ ("tba_team", team) :: l3) /\
  In writer_A (three_writers_db "obj_team") /\
  In writer_B (three_writers_db "tba_team") /\
  key_path quote team writer_A = ["254"] /\
  key_path quote team writer_B = ["254"] /\
  dict_get writer_A "opr" = Some (VInt 10) /\
  dict_get writer_B "opr" = Some (VInt 20) /\
  dict_get writer_A "rate" = Some (VFloat (FFinite "1.5")) /\
  dict_get writer_B "rate" = Some (VFloat FNaN) /\
  dict_get writer_A "_id" = Some (oid "e1") /\
  dict_get writer_B "_id" = Some (oid "e2") /\
  exists data leaf,
    get_viewer_data quote no_options three_writers_db = Ok data /\
    leaf_at data team ["254"] = Some leaf /\
    dict_get leaf "opr" = Some (VInt 30) /\
    dict_get leaf "opr" <> dict_get writer_B "opr" /\
    dict_get leaf "rate" = Some VNone /\
    dict_get leaf "rate" <> dict_get writer_B "rate" /\
    dict_get leaf "_id" = None /\
    dict_get leaf "_id" <> dict_get writer_B "_id".
Proof.
  split.
  { exists [("raw_obj_pit", team); ("tba_tim", tim); ("obj_tim", tim)],
           [("subj_team", team); ("predicted_aim", aim); ("predicted_team", team)],
           [("pickability", team); ("picklist", team);
            ("predicted_alliances", alliance); ("auto_paths", auto_paths);
            ("subj_tim", tim)].
    reflexivity. }
  repeat (split; [first [reflexivity | now left]|]).
  eexists. eexists.
  repeat split; try reflexivity; discriminate.
Qed.

Lemma field_union_witness :
  exists leaf,
    leaf_at event_view team ["254"] = Some leaf /\
    dict_get leaf "opr" = Some (VInt 10) /\
    dict_get leaf "name" = Some (VStr "Cheesy").
Proof.
  apply (field_union quote no_options event_db event_view
           [("obj_tim", tim, obj_tim_7_254)]
           [("subj_team", team, subj_team_254);
            ("predicted_aim", aim, predicted_aim_7_red)]
           [("tba_team", team, tba_team_1678); ("picklist", team, picklist_254)]
           "obj_team" "tba_team" team obj_team_254 tba_team_254
           "opr" "name" (VInt 10) (VStr "Cheesy")).
  - reflexivity.
  - reflexivity.
  - reflexivity.
  - payload.
  - payload.
  - reflexivity.
  - reflexivity.
  - intros k [Hkey Hid] Hname. unfold tba_team_254. cbn [dict_get].
    destruct (String.eqb_spec "_id" k); [congruence|].
    destruct (String.eqb_spec "team_number" k);
      [exfalso; apply Hkey; simpl; auto|].
    destruct (String.eqb_spec "name" k); [congruence | reflexivity].
  - discriminate.
  - reflexivity.
  - reflexivity.
  - repeat constructor; silent.
  - repeat constructor; silent.
Defined.

(** C2 fails as stated.  The record of [obj_team] for team 254 sets [opr]
    and [rate], and that of [tba_team] sets only [name]; the leaf holds
    neither field with the value of [obj_team]: [pickability], processed
    later, sets [opr] again, and [rate], NaN in [obj_team], is null. *)
Lemma field_union_counterexample :
  fetched no_options overwritten_union_db =
    [("obj_team", team, union_A); ("tba_team", team, union_B);
     ("pickability", team, union_C)] /\
  key_path quote team union_A = ["254"] /\
  key_path quote team union_B = ["254"] /\
  dict_get union_A "opr" = Some (VInt 10) /\
  dict_get union_A "rate" = Some (VFloat FNaN) /\
  union_B = [("team_number", VInt 254); ("name", VStr "Cheesy")] /\
  exists data leaf,
    get_viewer_data quote no_options overwritten_union_db = Ok data /\
    leaf_at data team ["254"] = Some leaf /\
    dict_get leaf "name" = Some (VStr "Cheesy") /\
    dict_get leaf "opr" = Some (VInt 30) /\
    dict_get leaf "opr" <> dict_get union_A "opr" /\
    dict_get leaf "rate" = Some VNone /\
    dict_get leaf "rate" <> dict_get union_A "rate".
Proof.
  repeat (split; [reflexivity|]).
  eexists. eexists.
  repeat split; try reflexivity; discriminate.
Qed.

Lemma no_key_leakage_witness :
  dict_get [("speaker", VInt 3)] "team_number" = None.
Proof.
  apply (no_key_leakage quote no_options event_db event_view tim ["7"; "254"]).
  - reflexivity.
  - reflexivity.
  - reflexivity.
  - left. simpl. auto.
Defined.

Lemma nan_becomes_null_witness :
  (exists fields,
     prepared quote strings_everywhere ("obj_team", team, nonfinite_doc) =
       Ok (team, ["254"], fields) /\
     dict_get fields "opr" = Some VNone) /\
  (exists leaf,
     leaf_at nonfinite_view team ["254"] = Some leaf /\
     dict_get leaf "opr" = Some VNone).
Proof.
  destruct (nan_becomes_null quote strings_everywhere nonfinite_db nonfinite_view
              [] [("tba_team", team, tba_team_1678)]
              "obj_team" team nonfinite_doc "opr" (VFloat FNaN))
    as [Hrecord Hleaf].
  - reflexivity.
  - reflexivity.
  - payload.
  - reflexivity.
  - reflexivity.
  - reflexivity.
  - split; [exact Hrecord|]. apply Hleaf. repeat constructor; silent.
Defined.

(** C4 fails as stated.  A field that holds an infinity is not replaced by
    null: [math.isnan] is false on it, and it reaches the leaf as it is. *)
Lemma infinity_counterexample :
  dict_get nonfinite_doc "epa" = Some (VFloat (FInf false)) /\
  dict_get nonfinite_doc "drop" = Some (VFloat (FInf true)) /\
  exists data leaf,
    get_viewer_data quote no_options nonfinite_db = Ok data /\
    leaf_at data team ["254"] = Some leaf /\
    dict_get leaf "epa" = Some (VFloat (FInf false)) /\
    dict_get leaf "drop" = Some (VFloat (FInf true)) /\
    dict_get leaf "epa" <> Some VNone /\
    dict_get leaf "drop" <> Some VNone.
Proof.
  repeat (split; [reflexivity|]).
  eexists. eexists.
  repeat split; try reflexivity; discriminate.
Qed.



Lemma selective_stringification_witness :
  dict_get pit_fields "motors" = Some (VStr "[4, 'kraken']") /\
  dict_get pit_fields "dimensions" =
    Some (VDict [("width", VFloat (FFinite "27.5"))]).
Proof.
  split.
  - apply (proj1 (selective_stringification quote strings_but_dimensions
                    "raw_obj_pit" pit_sanitized pit_fields
                    "motors" (VList [VInt 4; VStr "kraken"])
                    eq_refl eq_refl));
      reflexivity.
  - apply (proj1 (proj2 (selective_stringification quote strings_but_dimensions
                    "raw_obj_pit" pit_sanitized pit_fields
                    "dimensions" (VDict [("width", VFloat (FFinite "27.5"))])
                    eq_refl eq_refl)));
      first [reflexivity | left; reflexivity].
Defined.

Lemma ignored_collections_contribute_nothing_witness :
  get_viewer_data quote without_tba_team event_db =
  get_viewer_data quote without_tba_team event_db_other_tba.
Proof.
  apply (proj1 (ignored_collections_contribute_nothing quote without_tba_team
                  event_db event_db_other_tba
                  ltac:(intros c H; cbn in H; rewrite orb_false_r in H;
                        unfold event_db, event_db_other_tba, database_of;
                        cbn [dict_get];
                        rewrite (String.eqb_sym "tba_team" c), H;
                        reflexivity))).
Defined.

Lemma every_document_type_present_witness :
  dict_keys event_view = ["team"; "tim"; "aim"; "alliance"; "auto_paths"] /\
  forall t, exists tree,
    dict_get event_view (type_name t) = Some (VDict tree) /\
    ((forall r, In r (fetched no_options event_db) -> snd (fst r) <> t) ->
     tree = []).
Proof.
  apply (every_document_type_present quote no_options event_db event_view).
  reflexivity.
Defined.


Lemma aim_key_by_truthiness_witness :
  make_key quote aim aim_doc =
  Ok (["12"; "red"], [("predicted_score", VInt 40)]).
Proof.
  apply (proj1 (aim_key_by_truthiness quote aim_doc (VInt 12) (VInt 1)
                  eq_refl eq_refl)).
Defined.

(** The example of the specification. *)
Example scenario_of_the_specification :
  get_viewer_data quote no_options scenario_db =
  Ok [ ("team", VDict [("254", VDict [("opr", VInt 10); ("name", VStr "Cheesy")])]);
       ("tim", VDict []); ("aim", VDict []); ("alliance", VDict []);
       ("auto_paths", VDict []) ].
Proof. reflexivity. Qed.

(** An int that does not fit a double stops the build at the NaN test. *)
Example huge_int_overflows :
  get_viewer_data quote no_options
    (database_of [("obj_team", [[("team_number", VInt 254); ("big", VInt (2 ^ 1024))]])])
  = Raise OverflowError.
Proof. vm_compute. reflexivity. Qed.

Example pit_document_sanitized :
  make_key quote team pit_doc = Ok (["254"], (("_id", oid "d1") :: pit_sanitized)) /\
  serialize_viewer_document (("_id", oid "d1") :: pit_sanitized) = pit_sanitized /\
  prepared quote strings_but_dimensions ("raw_obj_pit", team, pit_doc) =
    Ok (team, ["254"], pit_fields).
Proof. repeat split; reflexivity. Qed.

(** ** More about [get_by_path] and [set_by_path] *)

Lemma dict_set_nonempty {V : Type} (d : list (string * V)) (k : string) (v : V) :
  dict_set d k v <> [].
Proof.
  destruct d as [|[k' v'] d]; simpl; [discriminate|].
  destruct (String.eqb k' k); discriminate.
Qed.

Lemma dict_set_set {V : Type} (d : list (string * V)) (k : string) (v v' : V) :
  dict_set (dict_set d k v) k v' = dict_set d k v'.
Proof.
  induction d as [|[k0 v0] d IH]; simpl.
  - now rewrite String.eqb_refl.
  - destruct (String.eqb k0 k) eqn:E; simpl.
    + now rewrite String.eqb_refl.
    + now rewrite E, IH.
Qed.

Lemma get_by_path_cons (kvs : dict) (k : string) (rest : list string) :
  get_by_path (VDict kvs) (k :: rest) =
  get_by_path (match dict_get kvs k with Some c => c | None => VNone end) rest.
Proof.
  change (get_by_path (VDict kvs) (k :: rest))
    with (d <- (if truthy (VDict kvs) then py_get (VDict kvs) k else Ok VNone) ;;
          get_by_path d rest).
  destruct kvs as [|kv kvs']; [reflexivity|].
  change (truthy (VDict (kv :: kvs'))) with true. reflexivity.
Qed.

Lemma get_by_path_step (d : value) (k : string) (rest : list string) :
  get_by_path d (k :: rest) =
  bind (if truthy d then py_get d k else Ok VNone) (fun d' => get_by_path d' rest).
Proof. reflexivity. Qed.

Lemma set_by_path_last (d : value) (k : string) (v : value) :
  set_by_path d [k] v = py_setitem d k v.
Proof. reflexivity. Qed.

Lemma set_by_path_deeper (d : value) (k k2 : string) (rest : list string) (v : value) :
  set_by_path d (k :: k2 :: rest) v =
  match d with
  | VDict kvs =>
      child' <- set_by_path (match dict_get kvs k with
                             | Some c => c
                             | None => VDict []
                             end) (k2 :: rest) v ;;
      Ok (VDict (dict_set kvs k child'))
  | _ => Raise AttributeError
  end.
Proof. reflexivity. Qed.

(** What [set_by_path] did, when it did not raise. *)
Lemma set_by_path_ok_inv (d : value) (k : string) (rest : list string)
      (v d' : value) :
  set_by_path d (k :: rest) v = Ok d' ->
  exists kvs, d = VDict kvs /\
    match rest with
    | [] => d' = VDict (dict_set kvs k v)
    | _ :: _ =>
        exists child',
          set_by_path (match dict_get kvs k with
                       | Some c => c
                       | None => VDict []
                       end) rest v = Ok child' /\
          d' = VDict (dict_set kvs k child')
    end.
Proof.
  destruct rest as [|k2 rest].
  - rewrite set_by_path_last. destruct d; simpl; try discriminate.
    intros [= <-]. eauto.
  - rewrite set_by_path_deeper. destruct d; try discriminate.
    intros H. apply bind_ok_inv in H as (child' & Hc & [= <-]). eauto.
Qed.

(** X1.  Round trip: what [set_by_path] stores at a path, [get_by_path]
    finds at that path, whatever the dictionary held before. *)
Theorem set_then_get (path : list string) :
  forall d v d', set_by_path d path v = Ok d' -> get_by_path d' path = Ok v.
Proof.
  induction path as [|k rest IH]; intros d v d' H; [discriminate|].
  apply set_by_path_ok_inv in H as (kvs & -> & H).
  destruct rest as [|k2 rest].
  - subst d'. rewrite get_by_path_cons, dict_get_set_eq. reflexivity.
  - destruct H as (child' & Hc & ->).
    rewrite get_by_path_cons, dict_get_set_eq. exact (IH _ _ _ Hc).
Qed.

Lemma get_by_path_empty_dict (path : list string) :
  path <> [] -> get_by_path (VDict []) path = Ok VNone.
Proof.
  destruct path as [|k rest]; [contradiction|]. intros _.
  rewrite get_by_path_cons. apply reduce_get_none.
Qed.

(** X2.  Frame: [set_by_path] changes what [get_by_path] finds at no other
    path of the same length. *)
Theorem set_by_path_frame (path : list string) :
  forall d v d' p,
    set_by_path d path v = Ok d' ->
    length p = length path -> p <> path ->
    get_by_path d' p = get_by_path d p.
Proof.
  induction path as [|k rest IH]; intros d v d' p H Hlen Hne; [discriminate|].
  destruct p as [|k' rest']; [discriminate|].
  apply set_by_path_ok_inv in H as (kvs & -> & H).
  destruct rest as [|k2 rest].
  - subst d'. destruct rest'; [|discriminate].
    rewrite !get_by_path_cons.
    rewrite dict_get_set_ne by congruence. reflexivity.
  - destruct H as (child' & Hc & ->).
    rewrite !get_by_path_cons. rewrite dict_get_set.
    destruct (String.eqb_spec k k') as [<-|Hk]; [|reflexivity].
    assert (Hlen' : length rest' = length (k2 :: rest)) by (simpl in *; lia).
    assert (Hne' : rest' <> k2 :: rest) by congruence.
    rewrite (IH _ _ _ _ Hc Hlen' Hne').
    destruct (dict_get kvs k); [reflexivity|].
    rewrite get_by_path_empty_dict, reduce_get_none; [reflexivity|].
    intros ->. discriminate.
Qed.

(** X3.  Overwriting: a second [set_by_path] at the same path does not
    raise, and leaves the dictionary that the second store alone would have
    left. *)
Theorem set_by_path_overwrites (path : list string) :
  forall d v v' d1,
    set_by_path d path v = Ok d1 ->
    exists d2, set_by_path d path v' = Ok d2 /\ set_by_path d1 path v' = Ok d2.
Proof.
  induction path as [|k rest IH]; intros d v v' d1 H; [discriminate|].
  apply set_by_path_ok_inv in H as (kvs & -> & H).
  destruct rest as [|k2 rest].
  - subst d1. exists (VDict (dict_set kvs k v')). split; [reflexivity|].
    rewrite set_by_path_last. simpl. now rewrite dict_set_set.
  - destruct H as (child1 & Hc & ->).
    destruct (IH _ _ v' _ Hc) as (child2 & H2 & H12).
    exists (VDict (dict_set kvs k child2)).
    rewrite !set_by_path_deeper, dict_get_set_eq, H2, H12. simpl.
    now rewrite dict_set_set.
Qed.

(** X4.  On the empty dict [set_by_path] creates every level of the path:
    it leaves [{k1: {k2: ... {kn: v}}}]. *)
Theorem set_by_path_creates_levels (path : list string) (v : value) :
  path <> [] -> set_by_path (VDict []) path v = Ok (nested path v).
Proof.
  induction path as [|k rest IH]; intros Hne; [contradiction|].
  destruct rest as [|k2 rest]; [reflexivity|].
  rewrite set_by_path_deeper. cbn [dict_get].
  rewrite IH by discriminate. reflexivity.
Qed.

(** X5.  Soundness of [get_by_path]: a result other than None is the value
    stored at the path. *)
Theorem get_by_path_sound (path : list string) :
  forall d v, get_by_path d path = Ok v -> v <> VNone ->
              lookup_path d path = Some v.
Proof.
  induction path as [|k rest IH]; intros d v H Hv.
  - injection H as <-. reflexivity.
  - rewrite get_by_path_step in H.
    destruct (truthy d) eqn:Ht.
    + destruct d; try discriminate. cbn [py_get bind] in H. cbn [lookup_path].
      destruct (dict_get kvs k) as [c|]; [now apply IH|].
      rewrite reduce_get_none in H. congruence.
    + cbn [bind] in H. rewrite reduce_get_none in H. congruence.
Qed.

(** X6.  [get_by_path] raises nothing but [AttributeError], and only when
    the path runs through a value that is truthy and not a dict; a missing
    key, an empty dict or a None on the way make it return None. *)
Theorem get_by_path_raises (path : list string) :
  forall d e, get_by_path d path = Raise e ->
    e = AttributeError /\
    exists q rest x,
      path = q ++ rest /\ rest <> [] /\ lookup_path d q = Some x /\
      truthy x = true /\ forall kvs, x <> VDict kvs.
Proof.
  induction path as [|k rest IH]; intros d e H; [discriminate|].
  rewrite get_by_path_step in H.
  destruct (truthy d) eqn:Ht.
  - destruct d as [| | | | | |kvs|];
      try (cbn [py_get bind] in H; injection H as <-; split; [reflexivity|];
           eexists [], (k :: rest), _;
           repeat split; [discriminate | exact Ht | discriminate]).
    cbn [py_get bind] in H.
    destruct (dict_get kvs k) as [c|] eqn:Hget.
    + destruct (IH c e H) as (-> & q & rest' & x & -> & Hr & Hl & Hx & Hd).
      split; [reflexivity|].
      exists (k :: q), rest', x. cbn [lookup_path]. rewrite Hget. auto.
    + rewrite reduce_get_none in H. discriminate.
  - cbn [bind] in H. rewrite reduce_get_none in H. discriminate.
Qed.

(** ** More about [make_key] *)

Lemma find_none_iff {A : Type} (f : A -> bool) (l : list A) :
  find f l = None <-> forall x, In x l -> f x = false.
Proof.
  induction l as [|a l IH]; simpl.
  - split; [intros _ x [] | reflexivity].
  - destruct (f a) eqn:E.
    + split; [discriminate|]. intros H. rewrite (H a) in E by now left. discriminate.
    + rewrite IH. split.
      * intros H x [<-|Hx]; [exact E | now apply H].
      * intros H x Hx. apply H. now right.
Qed.

Lemma filter_filter {A : Type} (f g : A -> bool) (l : list A) :
  filter f (filter g l) = filter (fun x => g x && f x) l.
Proof.
  induction l as [|a l IH]; simpl; [reflexivity|].
  destruct (g a); simpl; [destruct (f a); now rewrite IH | exact IH].
Qed.

Lemma pops_filter (headers : list string) (document : dict) :
  fold_left dict_pop headers document =
  filter (fun kv => negb (is_key_field headers kv)) document.
Proof.
  revert document. induction headers as [|h rest IH]; intros document.
  - simpl. induction document as [|kv d IHd]; simpl; [reflexivity | now rewrite <- IHd].
  - cbn [fold_left]. rewrite IH. unfold dict_pop. rewrite filter_filter.
    apply filter_ext. intros kv. unfold is_key_field. cbn [existsb].
    now rewrite negb_orb.
Qed.

Section KeyMore.
Variable repr_str : string -> string.


(** X8.  [make_key] returns one key component per key field of the type and
    leaves the document without its key fields: every other field stays,
    with its value, in its place. *)
Theorem make_key_keeps_other_fields (t : DocumentTypes)
        (document document' : dict) (key : list string) :
  make_key repr_str t document = Ok (key, document') ->
  length key = length (COLLECTION_KEYS t) /\
  document' = filter (fun kv => negb (is_key_field (COLLECTION_KEYS t) kv)) document.
Proof.
  rewrite make_key_spec.
  destruct (first_missing t document); [discriminate|].
  intros [= <- <-]. split; [apply key_path_length | apply pops_filter].
Qed.

End KeyMore.

(** ** More about the two loops that sanitize a record *)

Lemma nan_to_none_map (d s : dict) :
  nan_to_none d = Ok s ->
  s = map (fun kv => (fst kv, if is_nan (snd kv) then VNone else snd kv)) d.
Proof.
  revert s. induction d as [|[k v] d IH]; intros s H; simpl in H.
  - now injection H as <-.
  - apply bind_ok_inv in H as (nan & Hnan & H).
    apply bind_ok_inv in H as (rest & Hrest & H).
    injection H as <-. apply nan_flag in Hnan. subst nan.
    simpl. f_equal. now apply IH.
Qed.

Lemma nan_to_none_total (d : dict) :
  (forall k z, In (k, VInt z) d -> fits_double z) ->
  exists s, nan_to_none d = Ok s.
Proof.
  induction d as [|[k v] d IH]; intros H; [simpl; eauto|].
  destruct IH as [s Hs]; [intros k' z Hin; apply (H k' z); now right|].
  assert (Hv : exists nan, (if is_number v then math_isnan v else Ok false) = Ok nan).
  { destruct v as [| | z | [| |] | | | |]; simpl; eauto.
    assert (Hz : fits_double z) by (apply (H k z); now left).
    apply Z.ltb_lt in Hz. rewrite Hz. eauto. }
  destruct Hv as [nan Hnan]. simpl. rewrite Hnan, Hs. simpl. eauto.
Qed.


Lemma nan_to_none_fits (d s : dict) :
  nan_to_none d = Ok s -> forall k z, In (k, VInt z) d -> fits_double z.
Proof.
  revert s. induction d as [|[k' v'] d IH]; intros s H k z Hin; [contradiction|].
  simpl in H. apply bind_ok_inv in H as (nan & Hnan & H).
  apply bind_ok_inv in H as (rest & Hrest & _).
  destruct Hin as [[= -> ->]|Hin]; [|exact (IH rest Hrest k z Hin)].
  simpl in Hnan. destruct (Z.abs z <? DBL_OVERFLOW)%Z eqn:E; [|discriminate].
  now apply Z.ltb_lt in E.
Qed.

Section SanitizeMore.
Variable repr_str : string -> string.
Variable q : query.

Lemma stringify_ints (itsd : option (list string)) (d : dict) (k : string) (z : Z) :
  In (k, VInt z) (stringify repr_str itsd d) <-> In (k, VInt z) d.
Proof.
  unfold stringify. rewrite in_map_iff. split.
  - intros ([k' v'] & E & Hin). cbn [fst snd] in E.
    destruct (is_listed itsd k'); [now injection E as <- <-|].
    destruct (is_primitive v'); [now injection E as <- <-|]. discriminate.
  - intros Hin. exists (k, VInt z). split; [|exact Hin]. cbn [fst snd].
    destruct (is_listed itsd k); reflexivity.
Qed.

Lemma sanitize_fields_ints (collection : string) (d : dict) (k : string) (z : Z) :
  In (k, VInt z)
     (if use_strings q && negb (is_listed (ignored_to_string_collections q) collection)
      then stringify repr_str (ignored_to_string_datapoints q) d else d)
  <-> In (k, VInt z) d.
Proof.
  destruct (use_strings q && negb (is_listed (ignored_to_string_collections q) collection));
    [apply stringify_ints | reflexivity].
Qed.

(** The two loops in closed form. *)
Lemma sanitize_fields_map (collection : string) (d s : dict) :
  sanitize_fields repr_str q collection d = Ok s ->
  s = map (fun kv => (fst kv, sanitized_value repr_str q collection (fst kv) (snd kv))) d.
Proof.
  unfold sanitize_fields. intros H. apply nan_to_none_map in H. subst s.
  unfold sanitized_value.
  destruct (use_strings q); cbn [andb].
  - destruct (is_listed (ignored_to_string_collections q) collection); cbn [andb negb].
    + reflexivity.
    + unfold stringify. rewrite map_map. apply map_ext. intros [k v]. cbn [fst snd].
      destruct (is_listed (ignored_to_string_datapoints q) k); cbn [andb negb fst snd];
        [reflexivity|].
      destruct (is_primitive v); reflexivity.
  - reflexivity.
Qed.

Lemma sanitized_value_idempotent (collection k : string) (v : value) :
  sanitized_value repr_str q collection k (sanitized_value repr_str q collection k v) =
  sanitized_value repr_str q collection k v.
Proof.
  unfold sanitized_value.
  destruct (use_strings q
            && negb (is_listed (ignored_to_string_collections q) collection)
            && negb (is_listed (ignored_to_string_datapoints q) k));
    destruct (is_primitive v) eqn:Hp; destruct (is_nan v) eqn:Hn;
    do 3 (cbn [andb negb is_nan is_primitive]; rewrite ?Hp, ?Hn); reflexivity.
Qed.

Lemma sanitized_value_int (collection k : string) (v : value) (z : Z) :
  sanitized_value repr_str q collection k v = VInt z -> v = VInt z.
Proof.
  unfold sanitized_value.
  destruct (use_strings q
            && negb (is_listed (ignored_to_string_collections q) collection)
            && negb (is_listed (ignored_to_string_datapoints q) k)
            && negb (is_primitive v)); cbn [is_nan]; [discriminate|].
  destruct (is_nan v); [discriminate | auto].
Qed.

Lemma sanitize_fields_total (collection : string) (sanitized : dict) :
  (forall k z, In (k, VInt z) sanitized -> fits_double z) ->
  exists fields, sanitize_fields repr_str q collection sanitized = Ok fields.
Proof.
  intros H. unfold sanitize_fields. apply nan_to_none_total. intros k z Hin.
  apply (H k z). now apply (sanitize_fields_ints collection).
Qed.

(** X9.  The two loops never add, drop, rename or reorder a field. *)
Theorem sanitize_fields_keeps_field_names
        (collection : string) (sanitized fields : dict) :
  sanitize_fields repr_str q collection sanitized = Ok fields ->
  dict_keys fields = dict_keys sanitized.
Proof.
  intros H. apply sanitize_fields_map in H. subst fields.
  unfold dict_keys. rewrite map_map. reflexivity.
Qed.


(** X11.  Sanitizing is idempotent: a record that went through the two
    loops goes through them again unchanged, and without raising. *)
Theorem sanitize_fields_idempotent
        (collection : string) (sanitized fields : dict) :
  sanitize_fields repr_str q collection sanitized = Ok fields ->
  sanitize_fields repr_str q collection fields = Ok fields.
Proof.
  intros H.
  destruct (sanitize_fields_total collection fields)
    as [fields' H'].
  { intros k z Hin. pose proof (sanitize_fields_map _ _ _ H) as E. subst fields.
    apply in_map_iff in Hin as ([k' v'] & E & Hin). cbn [fst snd] in E.
    injection E as -> E. apply sanitized_value_int in E. subst v'.
    unfold sanitize_fields in H.
    apply (nan_to_none_fits _ _ H k z).
    now apply (sanitize_fields_ints collection). }
  rewrite H'. f_equal.
  apply sanitize_fields_map in H'. apply sanitize_fields_map in H. subst fields' fields.
  rewrite map_map. apply map_ext. intros [k v]. cbn [fst snd].
  now rewrite sanitized_value_idempotent.
Qed.

End SanitizeMore.

(** ** More about the view of a build *)

Lemma dict_update_entry {V : Type} (d new : list (string * V)) (k : string) (v : V) :
  dict_get (dict_update d new) k = Some v ->
  In (k, v) new \/ dict_get d k = Some v.
Proof.
  unfold dict_update. revert d.
  induction new as [|[k0 v0] new IH]; intros d H; [now right|].
  cbn [fold_left fst snd] in H. destruct (IH _ H) as [Hin|Hget].
  - left. now right.
  - rewrite dict_get_set in Hget.
    destruct (String.eqb_spec k0 k) as [->|Hne]; [|now right].
    injection Hget as ->. left. now left.
Qed.

Lemma merged_entry (t : DocumentTypes) (p : list string) (k : string) (v : value)
      (cs : list (DocumentTypes * list string * dict)) :
  forall acc leaf,
    merged t p cs acc = Some leaf -> dict_get leaf k = Some v ->
    (exists c, In c cs /\ fst (fst c) = t /\ snd (fst c) = p /\ In (k, v) (snd c)) \/
    (exists l, acc = Some l /\ dict_get l k = Some v).
Proof.
  induction cs as [|[[t' p'] f] cs IH]; intros acc leaf H Hk; cbn [merged] in H.
  - right. eauto.
  - destruct (IH _ _ H Hk) as [(c & Hc & Hrest)|(l & Hl & Hget)].
    + left. exists c. split; [now right | exact Hrest].
    + destruct (DocumentTypes_eq_dec t' t) as [Et|Et]; [|right; eauto].
      destruct (path_eq_dec p' p) as [Ep|Ep]; [|right; eauto].
      injection Hl as <-. apply dict_update_entry in Hget as [Hin|Hget].
      * left. exists (t', p', f). split; [now left | auto].
      * right. destruct acc as [l|]; [eauto | discriminate].
Qed.

Lemma merged_none_iff (t : DocumentTypes) (p : list string)
      (cs : list (DocumentTypes * list string * dict)) :
  forall acc,
    merged t p cs acc = None <->
    acc = None /\ forall c, In c cs -> ~ (fst (fst c) = t /\ snd (fst c) = p).
Proof.
  induction cs as [|[[t' p'] f] cs IH]; intros acc; cbn [merged].
  - split; [intros ->; split; [reflexivity | intros c []] | now intros [-> _]].
  - rewrite IH. split.
    + intros [Hacc Hcs].
      destruct (DocumentTypes_eq_dec t' t) as [Et|Et];
        [destruct (path_eq_dec p' p) as [Ep|Ep]; [discriminate|]|];
        (split; [exact Hacc|]; intros c [<-|Hc]; [simpl; tauto | now apply Hcs]).
    + intros [-> Hcs].
      assert (Hhd : ~ (t' = t /\ p' = p)) by exact (Hcs _ (or_introl eq_refl)).
      destruct (DocumentTypes_eq_dec t' t) as [Et|Et];
        [destruct (path_eq_dec p' p) as [Ep|Ep]; [tauto|]|];
        (split; [reflexivity|]; intros c Hc; apply Hcs; now right).
Qed.

Section ViewMore.
Variable repr_str : string -> string.
Variable q : query.

Lemma sanitized_value_not_nan (collection k : string) (v : value) :
  is_nan (sanitized_value repr_str q collection k v) = false.
Proof.
  unfold sanitized_value.
  destruct (use_strings q
            && negb (is_listed (ignored_to_string_collections q) collection)
            && negb (is_listed (ignored_to_string_datapoints q) k)
            && negb (is_primitive v)); cbn [is_nan]; [reflexivity|].
  destruct (is_nan v) eqn:E; [reflexivity | exact E].
Qed.

(** The fields a record is prepared into, in closed form. *)
Lemma prepared_fields_map (collection : string) (t t0 : DocumentTypes)
      (doc fields : dict) (key : list string) :
  prepared repr_str q (collection, t, doc) = Ok (t0, key, fields) ->
  fields = map (fun kv => (fst kv, sanitized_value repr_str q collection (fst kv) (snd kv)))
               (filter (fun kv => reaches_leaf t (fst kv)) doc).
Proof.
  rewrite prepared_spec. destruct (first_missing t doc); [discriminate|].
  intros H. apply bind_ok_inv in H as (s & Hs & [= _ _ <-]).
  unfold sanitize, serialize_viewer_document in Hs.
  apply sanitize_fields_map in Hs. subst s. f_equal.
  rewrite pops_filter. unfold dict_pop. rewrite filter_filter.
  apply filter_ext. intros kv. unfold reaches_leaf, is_key_field.
  now rewrite negb_orb.
Qed.

Lemma prepared_entry (collection : string) (t t0 : DocumentTypes)
      (doc fields : dict) (key : list string) (k : string) (v : value) :
  prepared repr_str q (collection, t, doc) = Ok (t0, key, fields) ->
  In (k, v) fields ->
  exists v0, In (k, v0) doc /\ payload_field t k /\
             v = sanitized_value repr_str q collection k v0.
Proof.
  intros H Hin. apply prepared_fields_map in H. subst fields.
  apply in_map_iff in Hin as ([k' v0] & [= -> <-] & Hin).
  apply filter_In in Hin as [Hin Hr]. cbn [fst] in Hr.
  exists v0. split; [exact Hin|]. split; [now apply payload_field_reaches | reflexivity].
Qed.

Lemma prepared_all_member (rs : list record)
      (cs : list (DocumentTypes * list string * dict)) (r : record) :
  prepared_all repr_str q rs = Ok cs -> In r rs ->
  exists c, prepared repr_str q r = Ok c /\ In c cs.
Proof.
  revert cs. induction rs as [|r0 rs IH]; intros cs H Hin; [contradiction|].
  cbn [prepared_all] in H.
  apply bind_ok_inv in H as (c0 & Hc0 & H).
  apply bind_ok_inv in H as (cs' & Hcs' & [= <-]).
  destruct Hin as [<-|Hin].
  - exists c0. split; [exact Hc0 | now left].
  - destruct (IH cs' Hcs' Hin) as (c & Hc & Hin'). exists c. split; [exact Hc | now right].
Qed.

(** Where a field of a leaf comes from. *)
Lemma leaf_field_origin (db : database) (data : dict) (t : DocumentTypes)
      (p : list string) (leaf : dict) (k : string) (v : value) :
  get_viewer_data repr_str q db = Ok data ->
  length p = depth t ->
  leaf_at data t p = Some leaf ->
  dict_get leaf k = Some v ->
  exists collection doc v0,
    In (collection, t, doc) (fetched q db) /\
    first_missing t doc = None /\
    key_path repr_str t doc = p /\
    In (k, v0) doc /\
    payload_field t k /\
    v = sanitized_value repr_str q collection k v0.
Proof.
  intros Hview Hp Hleaf Hk.
  destruct (view_spec repr_str q db data Hview) as (cs & Hall & _ & _ & _ & Hm).
  rewrite (Hm t p Hp) in Hleaf.
  destruct (merged_entry t p k v cs None leaf Hleaf Hk)
    as [([[t' p'] f] & Hin & Ht & Hp' & Hf)|(l & Hl & _)]; [|discriminate].
  simpl in Ht, Hp', Hf. subst t' p'.
  destruct (prepared_all_from repr_str q _ cs _ Hall Hin) as ([[c' t'] doc] & Hr & Hprep).
  destruct (prepared_entry _ _ _ _ _ _ _ _ Hprep Hf) as (v0 & Hv0 & Hpay & Hv).
  apply prepared_ok in Hprep as (<- & Hmiss & Hkey & _).
  exists c', doc, v0. auto 10.
Qed.

(** Which paths have a leaf. *)
Lemma leaf_iff_record (db : database) (data : dict) (t : DocumentTypes)
      (p : list string) :
  get_viewer_data repr_str q db = Ok data ->
  length p = depth t ->
  (leaf_at data t p <> None <->
   exists r, In r (fetched q db) /\ maps_to repr_str t p r).
Proof.
  intros Hview Hp.
  destruct (view_spec repr_str q db data Hview) as (cs & Hall & _ & _ & _ & Hm).
  rewrite (Hm t p Hp). split.
  - intros Hne.
    destruct (merged t p cs None) eqn:E; [|contradiction].
    assert (Hex : exists c, In c cs /\ fst (fst c) = t /\ snd (fst c) = p).
    { destruct (existsb (fun c => if DocumentTypes_eq_dec (fst (fst c)) t
                                  then if path_eq_dec (snd (fst c)) p then true else false
                                  else false) cs) eqn:Ex.
      - apply existsb_exists in Ex as (c & Hc & Hb). exists c. split; [exact Hc|].
        destruct (DocumentTypes_eq_dec (fst (fst c)) t); [|discriminate].
        destruct (path_eq_dec (snd (fst c)) p); [auto | discriminate].
      - assert (N : merged t p cs None = None).
        { apply merged_none_iff. split; [reflexivity|]. intros c Hc [Ht Hp'].
          assert (Hb : existsb (fun c => if DocumentTypes_eq_dec (fst (fst c)) t
                                  then if path_eq_dec (snd (fst c)) p then true else false
                                  else false) cs = true).
          { apply existsb_exists. exists c. split; [exact Hc|].
            destruct (DocumentTypes_eq_dec (fst (fst c)) t); [|contradiction].
            destruct (path_eq_dec (snd (fst c)) p); [reflexivity | contradiction]. }
          congruence. }
        congruence. }
    destruct Hex as ([[t' p'] f] & Hin & Ht & Hp'). simpl in Ht, Hp'. subst t' p'.
    destruct (prepared_all_from repr_str q _ cs _ Hall Hin) as ([[c' t'] doc] & Hr & Hprep).
    apply prepared_ok in Hprep as (<- & Hmiss & Hkey & _).
    exists (c', t, doc). split; [exact Hr|]. repeat split; simpl; auto.
  - intros ([[c' t'] doc] & Hr & Ht & Hmiss & Hkey). simpl in Ht, Hmiss, Hkey. subst t'.
    destruct (prepared_all_member _ cs _ Hall Hr) as ([[t0 key] f] & Hprep & Hin).
    apply prepared_ok in Hprep as (-> & _ & -> & _).
    intros N. apply merged_none_iff in N as [_ N].
    apply (N _ Hin). simpl. auto.
Qed.

(** X12.  Nothing is invented: every field of every leaf was set by a
    fetched record that maps to the leaf, as a payload field, and holds the
    sanitized value of that record. *)
Theorem leaf_fields_come_from_records
        (db : database) (data : dict) (t : DocumentTypes)
        (p : list string) (leaf : dict) (k : string) (v : value) :
  get_viewer_data repr_str q db = Ok data ->
  length p = depth t ->
  leaf_at data t p = Some leaf ->
  dict_get leaf k = Some v ->
  exists collection doc v0,
    In (collection, t, doc) (fetched q db) /\
    key_path repr_str t doc = p /\
    In (k, v0) doc /\
    payload_field t k /\
    v = sanitized_value repr_str q collection k v0.
Proof.
  intros Hview Hp Hleaf Hk.
  destruct (leaf_field_origin db data t p leaf k v Hview Hp Hleaf Hk)
    as (c & doc & v0 & H1 & _ & H2 & H3 & H4 & H5).
  exists c, doc, v0. auto.
Qed.

(** X13.  No leaf of a view holds NaN. *)
Theorem view_has_no_nan
        (db : database) (data : dict) (t : DocumentTypes)
        (p : list string) (leaf : dict) (k : string) (v : value) :
  get_viewer_data repr_str q db = Ok data ->
  length p = depth t ->
  leaf_at data t p = Some leaf ->
  dict_get leaf k = Some v ->
  is_nan v = false.
Proof.
  intros Hview Hp Hleaf Hk.
  destruct (leaf_field_origin db data t p leaf k v Hview Hp Hleaf Hk)
    as (c & doc & v0 & _ & _ & _ & _ & _ & ->).
  apply sanitized_value_not_nan.
Qed.

(** X14.  With [use_strings] and no collection of the registry exempted, a
    field that is not listed in [ignored_to_string_datapoints] holds a
    primitive in every leaf. *)
Theorem use_strings_gives_primitives
        (db : database) (data : dict) (t : DocumentTypes)
        (p : list string) (leaf : dict) (k : string) (v : value) :
  get_viewer_data repr_str q db = Ok data ->
  use_strings q = true ->
  (forall c t', In (c, t') COLLECTIONS ->
                is_listed (ignored_to_string_collections q) c = false) ->
  is_listed (ignored_to_string_datapoints q) k = false ->
  length p = depth t ->
  leaf_at data t p = Some leaf ->
  dict_get leaf k = Some v ->
  is_primitive v = true.
Proof.
  intros Hview Hus Hitsc Hitsd Hp Hleaf Hk.
  destruct (leaf_field_origin db data t p leaf k v Hview Hp Hleaf Hk)
    as (c & doc & v0 & Hin & _ & _ & _ & _ & ->).
  assert (Hc : is_listed (ignored_to_string_collections q) c = false).
  { unfold fetched, fetched_from in Hin.
    apply in_flat_map in Hin as ([c' t'] & Hreg & Hin). cbn [fst snd] in Hin.
    destruct (is_listed (ignored_collections q) c'); [contradiction|].
    apply in_map_iff in Hin as (d & [= <- _ _] & _). exact (Hitsc _ _ Hreg). }
  unfold sanitized_value. rewrite Hus, Hc, Hitsd. cbn [andb negb].
  destruct (is_primitive v0) eqn:E; cbn [negb is_nan]; [|reflexivity].
  destruct (is_nan v0); [reflexivity | exact E].
Qed.

(** X15.  The leaves of a view are the key paths of the fetched records: a
    path has a leaf exactly when some fetched record of that type has it as
    its key. *)
Theorem leaves_are_the_key_paths
        (db : database) (data : dict) (t : DocumentTypes) (p : list string) :
  get_viewer_data repr_str q db = Ok data ->
  length p = depth t ->
  (leaf_at data t p <> None <->
   exists collection doc,
     In (collection, t, doc) (fetched q db) /\ key_path repr_str t doc = p).
Proof.
  intros Hview Hp. rewrite (leaf_iff_record db data t p Hview Hp). split.
  - intros ([[c t'] doc] & Hin & Ht & _ & Hkey). simpl in Ht, Hkey. subst t'. eauto.
  - intros (c & doc & Hin & Hkey). exists (c, t, doc). split; [exact Hin|].
    destruct (view_spec repr_str q db data Hview) as (cs & Hall & _).
    destruct (prepared_all_member _ cs _ Hall Hin) as ([[t0 key] f] & Hprep & _).
    apply prepared_ok in Hprep as (_ & Hmiss & _).
    repeat split; simpl; auto.
Qed.

(** X16.  In the [aim] tree every leaf sits under ["red"] or ["blue"]. *)
Theorem aim_leaves_are_red_or_blue
        (db : database) (data : dict) (p : list string) (leaf : dict) :
  get_viewer_data repr_str q db = Ok data ->
  length p = 2 ->
  leaf_at data aim p = Some leaf ->
  exists match_number, p = [match_number; "red"] \/ p = [match_number; "blue"].
Proof.
  intros Hview Hp Hleaf.
  assert (Hne : leaf_at data aim p <> None) by congruence.
  apply (leaf_iff_record db data aim p Hview Hp) in Hne
    as ([[c t'] doc] & _ & _ & Hmiss & Hkey).
  simpl in Hkey, Hmiss. subst p. unfold key_path. cbn [COLLECTION_KEYS map].
  exists (key_component repr_str doc "match_number").
  unfold first_missing in Hmiss. rewrite find_none_iff in Hmiss.
  specialize (Hmiss "alliance_color_is_red" ltac:(simpl; auto)).
  assert (Hcolor : key_component repr_str doc "alliance_color_is_red" = "red" \/
                   key_component repr_str doc "alliance_color_is_red" = "blue").
  { unfold lacks in Hmiss. unfold key_component.
    destruct (dict_get doc "alliance_color_is_red") as [v|]; [|discriminate].
    cbn. destruct (truthy v); auto. }
  destruct Hcolor as [-> | ->]; auto.
Qed.

End ViewMore.

(** ** When a build returns, and what it raises *)

Lemma shaped_lookup (p : list string) :
  forall n tree v,
    shaped n tree -> length p <= n -> lookup_path tree p = Some v ->
    shaped (n - length p) v.
Proof.
  induction p as [|k rest IH]; intros n tree v Hs Hlen H.
  - injection H as <-. now rewrite Nat.sub_0_r.
  - destruct n as [|n]; [simpl in Hlen; lia|].
    destruct (shaped_dict _ _ Hs) as [kvs ->]. cbn [lookup_path] in H.
    destruct (dict_get kvs k) as [child|] eqn:Hget; [|discriminate].
    apply (IH n child v); [exact (shaped_child _ _ _ _ Hs Hget) | simpl in Hlen; lia | exact H].
Qed.

Section Outcome.
Variable repr_str : string -> string.
Variable q : query.










Lemma fetched_from_nothing (db : database) (registry : list (string * DocumentTypes)) :
  (forall c t, In (c, t) registry ->
               is_listed (ignored_collections q) c = false -> db c = []) ->
  fetched_from q db registry = [].
Proof.
  induction registry as [|[c t] registry IH]; intros H; [reflexivity|].
  unfold fetched_from. cbn [flat_map fst snd]. fold (fetched_from q db registry).
  rewrite IH by (intros c' t' Hin; apply (H c' t'); now right).
  destruct (is_listed (ignored_collections q) c) eqn:E; [reflexivity|].
  rewrite (H c t (or_introl eq_refl) E). reflexivity.
Qed.

(** X19.  With nothing to fetch (every collection of the registry is
    ignored or empty) the build returns the five document types, each with
    an empty tree. *)
Theorem nothing_fetched_gives_empty_view (db : database) :
  (forall c t, In (c, t) COLLECTIONS ->
               is_listed (ignored_collections q) c = false -> db c = []) ->
  get_viewer_data repr_str q db =
  Ok [("team", VDict []); ("tim", VDict []); ("aim", VDict []);
      ("alliance", VDict []); ("auto_paths", VDict [])].
Proof.
  intros H. rewrite get_viewer_data_flat. unfold fetched.
  rewrite (fetched_from_nothing db COLLECTIONS H). reflexivity.
Qed.

(** X20.  The view has the shape its type announces: under a document type,
    everything down to the depth of the key of that type is a dict (one
    level for team and alliance, two for tim, aim and auto_paths). *)
Theorem view_is_nested_dicts
        (db : database) (data : dict) (t : DocumentTypes) (tree : value)
        (p : list string) (v : value) :
  get_viewer_data repr_str q db = Ok data ->
  dict_get data (type_name t) = Some tree ->
  length p <= depth t ->
  lookup_path tree p = Some v ->
  exists kvs, v = VDict kvs.
Proof.
  intros Hview Hget Hlen Hlook.
  destruct (view_spec repr_str q db data Hview) as (cs & _ & Hd & _).
  destruct (Hd t) as (tree' & Hget' & Hs).
  assert (tree' = tree) by congruence. subst tree'.
  exact (shaped_dict _ _ (shaped_lookup p _ _ _ Hs Hlen Hlook)).
Qed.

(** X21.  Within one collection the later document wins: when two documents
    of a collection have the same key and the later one sets a payload
    field, the leaf holds the sanitized value of the later one, provided no
    record processed after it sets the field at that key. *)
Theorem later_document_wins
        (db : database) (data : dict) (collection : string) (t : DocumentTypes)
        (l1 l2 : list (string * DocumentTypes))
        (before between after : list dict) (earlier later : dict)
        (k : string) (v : value) :
  get_viewer_data repr_str q db = Ok data ->
  COLLECTIONS = l1 ++ (collection, t) :: l2 ->
  is_listed (ignored_collections q) collection = false ->
  db collection = before ++ earlier :: between ++ later :: after ->
  key_path repr_str t earlier = key_path repr_str t later ->
  payload_field t k ->
  dict_get later k = Some v ->
  unique_keys later = true ->
  Forall (silent_on repr_str t (key_path repr_str t later) k)
         (map (fun doc => (collection, t, doc)) after ++ fetched_from q db l2) ->
  exists leaf,
    leaf_at data t (key_path repr_str t later) = Some leaf /\
    dict_get leaf k = Some (sanitized_value repr_str q collection k v).
Proof.
  intros Hview Hreg Hc Hdb _ Hpay Hk Hu Hsilent.
  apply (last_writer repr_str q db data
           (fetched_from q db l1
            ++ map (fun doc => (collection, t, doc)) (before ++ earlier :: between))
           (map (fun doc => (collection, t, doc)) after ++ fetched_from q db l2));
    auto.
  assert (Hdb' : db collection = (before ++ earlier :: between) ++ later :: after).
  { rewrite Hdb, <- app_assoc. reflexivity. }
  unfold fetched.
  rewrite Hreg, fetched_from_app, (fetched_from_cons q db _ t l2 Hc), Hdb'.
  rewrite (map_app _ (before ++ earlier :: between)). cbn [map].
  rewrite <- !app_assoc. reflexivity.
Qed.

End Outcome.

(** ** Document types do not interfere *)

Section Isolation.
Variable repr_str : string -> string.
Variable q : query.

(** The loop body reads and writes the tree of the type of its collection,
    and nothing else of the view. *)
Lemma process_document_local (collection : string) (t : DocumentTypes)
      (data data' doc : dict) :
  process_document repr_str q collection t data doc = Ok data' ->
  exists tree tree',
    dict_get data (type_name t) = Some tree /\
    data' = dict_set data (type_name t) tree' /\
    forall data2,
      dict_get data2 (type_name t) = Some tree ->
      process_document repr_str q collection t data2 doc =
      Ok (dict_set data2 (type_name t) tree').
Proof.
  unfold process_document. intros H.
  apply bind_ok_inv in H as ([key doc'] & Hkey & H).
  apply bind_ok_inv in H as (tree & Htree & H).
  apply bind_ok_inv in H as (found & Hfound & H).
  apply bind_ok_inv in H as ([tree1 common] & Hcommon & H).
  apply bind_ok_inv in H as (sanitized & Hsan & H).
  apply bind_ok_inv in H as (common' & Hupd & H).
  apply bind_ok_inv in H as (tree' & Hset & [= <-]).
  unfold subscript in Htree.
  destruct (dict_get data (type_name t)) as [tree0|] eqn:Hget; [|discriminate].
  injection Htree as ->.
  exists tree, tree'. split; [reflexivity|]. split; [reflexivity|].
  intros data2 H2. unfold subscript.
  rewrite Hkey. cbn [bind]. rewrite H2. cbn [bind].
  rewrite Hfound. cbn [bind]. rewrite Hcommon. cbn [bind].
  rewrite Hsan. cbn [bind]. rewrite Hupd. cbn [bind].
  rewrite Hset. reflexivity.
Qed.

Lemma filter_of_type_same (t : DocumentTypes) (c : string) (doc : dict)
      (rs : list record) :
  filter (of_type t) ((c, t, doc) :: rs) = (c, t, doc) :: filter (of_type t) rs.
Proof.
  simpl. unfold of_type at 1. simpl.
  destruct (DocumentTypes_eq_dec t t); [reflexivity | contradiction].
Qed.

Lemma filter_of_type_other (t t' : DocumentTypes) (c : string) (doc : dict)
      (rs : list record) :
  t' <> t -> filter (of_type t) ((c, t', doc) :: rs) = filter (of_type t) rs.
Proof.
  intros Hne. simpl. unfold of_type at 1. simpl.
  destruct (DocumentTypes_eq_dec t' t); [contradiction | reflexivity].
Qed.

Lemma run_only_type (t : DocumentTypes) (rs : list record) :
  forall dataA dataB dA,
    dict_get dataA (type_name t) = dict_get dataB (type_name t) ->
    reduce (process_record repr_str q) rs dataA = Ok dA ->
    exists dB,
      reduce (process_record repr_str q) (filter (of_type t) rs) dataB = Ok dB /\
      dict_get dA (type_name t) = dict_get dB (type_name t).
Proof.
  induction rs as [|[[c t'] doc] rs IH]; intros dataA dataB dA Hagree H.
  - injection H as <-. exists dataB. split; [reflexivity | exact Hagree].
  - cbn [reduce process_record] in H.
    apply bind_ok_inv in H as (dA1 & Hstep & Hrest).
    destruct (process_document_local _ _ _ _ _ Hstep) as (tree & tree' & Hget & -> & Hany).
    destruct (DocumentTypes_eq_dec t' t) as [->|Hne].
    + rewrite filter_of_type_same. cbn [reduce process_record].
      rewrite (Hany dataB) by congruence. cbn [bind].
      apply (IH (dict_set dataA (type_name t) tree')
                (dict_set dataB (type_name t) tree') dA); [|exact Hrest].
      now rewrite !dict_get_set_eq.
    + rewrite filter_of_type_other by exact Hne.
      apply (IH (dict_set dataA (type_name t') tree') dataB dA); [|exact Hrest].
      rewrite dict_get_set_ne; [exact Hagree|].
      intros E. apply type_name_inj in E. contradiction.
Qed.

Lemma fetched_of_type (t : DocumentTypes) (db db' : database)
      (registry : list (string * DocumentTypes)) :
  (forall c, In (c, t) registry -> db c = db' c) ->
  filter (of_type t) (fetched_from q db registry) =
  filter (of_type t) (fetched_from q db' registry).
Proof.
  induction registry as [|[c t'] registry IH]; intros H; [reflexivity|].
  unfold fetched_from. cbn [flat_map fst snd].
  fold (fetched_from q db registry) (fetched_from q db' registry).
  rewrite !filter_app. rewrite IH by (intros c' Hin; apply H; now right).
  f_equal.
  destruct (is_listed (ignored_collections q) c); [reflexivity|].
  destruct (DocumentTypes_eq_dec t' t) as [->|Hne].
  - now rewrite (H c (or_introl eq_refl)).
  - assert (Hnone : forall docs,
              filter (of_type t) (map (fun doc : dict => (c, t', doc)) docs) = []).
    { induction docs as [|d docs IHd]; [reflexivity|].
      cbn [map]. now rewrite filter_of_type_other. }
    now rewrite !Hnone.
Qed.

(** X22.  Document types do not interfere: in two successful builds with
    the same query, the tree of a document type is the same as soon as the
    collections of that type hold the same documents, whatever the
    collections of the other types hold. *)
Theorem types_do_not_interfere
        (db db' : database) (data data' : dict) (t : DocumentTypes) :
  get_viewer_data repr_str q db = Ok data ->
  get_viewer_data repr_str q db' = Ok data' ->
  (forall c, In (c, t) COLLECTIONS -> db c = db' c) ->
  dict_get data (type_name t) = dict_get data' (type_name t).
Proof.
  rewrite !get_viewer_data_flat. intros H H' Hsame.
  destruct (run_only_type t _ initial_data initial_data data eq_refl H)
    as (d & Hd & E).
  destruct (run_only_type t _ initial_data initial_data data' eq_refl H')
    as (d' & Hd' & E').
  unfold fetched in Hd, Hd'.
  rewrite (fetched_of_type t db db' COLLECTIONS Hsame) in Hd.
  congruence.
Qed.

End Isolation.

(** ** The other endpoints *)

(** X23.  The allow-list of [read_collection] and the registry of the viewer
    are one: a collection that [COLLECTIONS] does not name is answered with
    404 whatever the database holds, and its documents have no effect on
    the view either. *)
Theorem unregistered_collection_is_never_served
        (serialize_documents : list dict -> value)
        (repr_str : string -> string) (q : query)
        (name : string) (db db' : mongo) :
  ~ In name (map fst COLLECTIONS) ->
  (forall c, c <> name -> find_in db c = find_in db' c) ->
  read_collection serialize_documents name db =
    JSONResponse (VDict [("error", VStr "Collection not found/allowed")]) 404 /\
  get_viewer_data repr_str q (find_in db) = get_viewer_data repr_str q (find_in db').
Proof.
  intros Hname Hsame. split.
  - unfold read_collection.
    destruct (existsb (String.eqb name) (map fst COLLECTIONS)) eqn:E; [|reflexivity].
    apply existsb_exists in E as (c & Hc & E). apply String.eqb_eq in E.
    subst c. contradiction.
  - apply get_viewer_data_ext. intros c t Hin _. apply Hsame.
    intros ->. apply Hname. apply in_map_iff. exists (name, t). auto.
Qed.


(** ** The further properties on the sample data *)

Lemma set_then_get_witness :
  get_by_path (VDict [("7", VDict [("254", VDict [("speaker", VInt 3)]);
                                   ("1678", VDict [])])])
              ["7"; "1678"] = Ok (VDict []).
Proof.
  apply (set_then_get ["7"; "1678"] tim_tree (VDict [])). reflexivity.
Defined.

Lemma set_by_path_frame_witness :
  get_by_path (VDict [("7", VDict [("254", VDict [("speaker", VInt 3)]);
                                   ("1678", VDict [])])])
              ["7"; "254"] =
  get_by_path tim_tree ["7"; "254"].
Proof.
  apply (set_by_path_frame ["7"; "1678"] tim_tree (VDict [])).
  - reflexivity.
  - reflexivity.
  - discriminate.
Defined.

Lemma set_by_path_overwrites_witness :
  exists d2,
    set_by_path tim_tree ["7"; "254"] (VDict [("speaker", VInt 5)]) = Ok d2 /\
    set_by_path (VDict [("7", VDict [("254", VDict [])])]) ["7"; "254"]
                (VDict [("speaker", VInt 5)]) = Ok d2.
Proof.
  apply (set_by_path_overwrites ["7"; "254"] tim_tree (VDict [])). reflexivity.
Defined.

Lemma set_by_path_creates_levels_witness :
  set_by_path (VDict []) ["7"; "254"] (VDict []) =
  Ok (VDict [("7", VDict [("254", VDict [])])]).
Proof.
  apply (set_by_path_creates_levels ["7"; "254"] (VDict [])). discriminate.
Defined.

Lemma get_by_path_sound_witness :
  lookup_path tim_tree ["7"; "254"] = Some (VDict [("speaker", VInt 3)]).
Proof.
  apply (get_by_path_sound ["7"; "254"] tim_tree).
  - reflexivity.
  - discriminate.
Defined.

Lemma get_by_path_raises_witness :
  AttributeError = AttributeError /\
  exists q rest x,
    ["speaker"; "count"] = q ++ rest /\ rest <> [] /\
    lookup_path flat_dict q = Some x /\
    truthy x = true /\ forall kvs, x <> VDict kvs.
Proof.
  apply (get_by_path_raises ["speaker"; "count"] flat_dict AttributeError).
  reflexivity.
Defined.

Lemma make_key_keeps_other_fields_witness :
  length ["254"] = length (COLLECTION_KEYS team) /\
  (("_id", oid "d1") :: pit_sanitized) =
  filter (fun kv => negb (is_key_field (COLLECTION_KEYS team) kv)) pit_doc.
Proof.
  apply (make_key_keeps_other_fields quote team pit_doc). reflexivity.
Defined.

Lemma sanitize_fields_keeps_field_names_witness :
  dict_keys pit_fields = dict_keys pit_sanitized.
Proof.
  apply (sanitize_fields_keeps_field_names quote strings_but_dimensions "raw_obj_pit").
  reflexivity.
Defined.

Lemma sanitize_fields_idempotent_witness :
  sanitize_fields quote strings_but_dimensions "raw_obj_pit" pit_fields = Ok pit_fields.
Proof.
  apply (sanitize_fields_idempotent quote strings_but_dimensions "raw_obj_pit"
           pit_sanitized).
  reflexivity.
Defined.

Lemma leaf_fields_come_from_records_witness :
  exists collection doc v0,
    In (collection, team, doc) (fetched no_options event_db) /\
    key_path quote team doc = ["254"] /\
    In ("name", v0) doc /\
    payload_field team "name" /\
    VStr "Cheesy" = sanitized_value quote no_options collection "name" v0.
Proof.
  apply (leaf_fields_come_from_records quote no_options event_db event_view team ["254"]
           [ ("opr", VInt 10); ("name", VStr "Cheesy");
             ("driver_ability", VFloat (FFinite "3.5")); ("rank", VInt 1) ]);
    reflexivity.
Defined.

Lemma view_has_no_nan_witness : is_nan VNone = false.
Proof.
  apply (view_has_no_nan quote strings_everywhere nonfinite_db nonfinite_view team ["254"]
           [ ("opr", VNone); ("epa", VFloat (FInf false));
             ("drop", VFloat (FInf true)) ] "opr");
    reflexivity.
Defined.

Lemma use_strings_gives_primitives_witness :
  is_primitive (VStr "{'width': 27.5}") = true.
Proof.
  apply (use_strings_gives_primitives quote strings_everywhere pit_db pit_view team ["254"]
           [ ("drivetrain", VStr "swerve"); ("motors", VStr "[4, 'kraken']");
             ("dimensions", VStr "{'width': 27.5}"); ("weight", VNone) ]
           "dimensions");
    reflexivity.
Defined.

Lemma leaves_are_the_key_paths_witness :
  leaf_at event_view team ["1678"] <> None <->
  exists collection doc,
    In (collection, team, doc) (fetched no_options event_db) /\
    key_path quote team doc = ["1678"].
Proof.
  apply (leaves_are_the_key_paths quote no_options event_db event_view team ["1678"]);
    reflexivity.
Defined.

Lemma aim_leaves_are_red_or_blue_witness :
  exists match_number,
    ["7"; "red"] = [match_number; "red"] \/ ["7"; "red"] = [match_number; "blue"].
Proof.
  apply (aim_leaves_are_red_or_blue quote no_options event_db event_view ["7"; "red"]
           [("predicted_score", VFloat (FFinite "55.5"))]);
    reflexivity.
Defined.


Lemma nothing_fetched_gives_empty_view_witness :
  get_viewer_data quote without_tba_team tba_only_db =
  Ok [("team", VDict []); ("tim", VDict []); ("aim", VDict []);
      ("alliance", VDict []); ("auto_paths", VDict [])].
Proof.
  apply (nothing_fetched_gives_empty_view quote without_tba_team tba_only_db).
  intros c t Hin Hc. simpl in Hin.
  repeat (destruct Hin as [Hin|Hin];
          [injection Hin as <- <-; first [reflexivity | discriminate Hc]|]).
  contradiction.
Defined.

Lemma view_is_nested_dicts_witness :
  exists kvs, VDict [("254", VDict [("speaker", VInt 3)])] = VDict kvs.
Proof.
  apply (view_is_nested_dicts quote no_options event_db event_view tim tim_tree ["7"]).
  - reflexivity.
  - reflexivity.
  - unfold depth. simpl. lia.
  - reflexivity.
Defined.

Lemma later_document_wins_witness :
  exists leaf,
    leaf_at repeat_view team ["254"] = Some leaf /\
    dict_get leaf "opr" = Some (VInt 30).
Proof.
  apply (later_document_wins quote no_options repeat_db repeat_view "obj_team" team
           [("raw_obj_pit", team); ("tba_tim", tim); ("obj_tim", tim)]
           [("subj_team", team); ("predicted_aim", aim); ("predicted_team", team);
            ("tba_team", team); ("pickability", team); ("picklist", team);
            ("predicted_alliances", alliance); ("auto_paths", auto_paths);
            ("subj_tim", tim)]
           [] [] [] union_A union_C "opr" (VInt 30)).
  - reflexivity.
  - reflexivity.
  - reflexivity.
  - reflexivity.
  - reflexivity.
  - payload.
  - reflexivity.
  - reflexivity.
  - repeat constructor; silent.
Defined.

Lemma types_do_not_interfere_witness :
  dict_get event_view "team" = dict_get teams_only_view "team".
Proof.
  apply (types_do_not_interfere quote no_options event_db teams_only_db
           event_view teams_only_view team).
  - reflexivity.
  - reflexivity.
  - intros c Hin. simpl in Hin.
    repeat (destruct Hin as [Hin|Hin];
            [first [discriminate Hin | injection Hin as <-; reflexivity]|]).
    contradiction.
Defined.

Lemma unregistered_collection_is_never_served_witness :
  read_collection as_list "secrets" with_secrets =
    JSONResponse (VDict [("error", VStr "Collection not found/allowed")]) 404 /\
  get_viewer_data quote no_options (find_in with_secrets) =
  get_viewer_data quote no_options (find_in without_secrets).
Proof.
  apply (unregistered_collection_is_never_served as_list quote no_options "secrets"
           with_secrets without_secrets).
  - simpl. intuition discriminate.
  - intros c Hc. simpl. destruct (String.eqb_spec c "secrets"); [contradiction | reflexivity].
Defined.
